(** * Authentication + JWT server (module 5): register, login, verifyToken

    A shallow embedding of the Express handlers of the authentication module
    (POST /api/register, POST /api/login, GET /api/profile, GET /api/users),
    of the [verifyToken] middleware of auth.js and of the [users] table of
    database.js, with the properties the specification states about them.

    Conventions.
    - A JavaScript string is a [string]; each element stands for one UTF-16
      code unit, so [String.length] is the [.length] of the source.
    - A body field or a header is an [option string]: [None] is [undefined]
      (the key is absent), [Some s] a string value.  The handlers are modelled
      on string-typed bodies, the data model of the specification.
    - Times are whole seconds since the epoch, as jsonwebtoken counts them
      ([Math.floor(Date.now() / 1000)]).
    - bcrypt, jsonwebtoken and [Date.prototype.toISOString] are libraries the
      handlers call; they are interfaces here ([Bcrypt], [JsonWebToken],
      [JsDate]), and so is what SQLite and JavaScript make of a token claim
      that is not a number ([Coercion]).  The token format of the
      specification (section 4.3) is given separately in [TokenSpec].
    - A request is what its route handler does: the logger middleware, which
      prints one line for every request before any route runs, is left
      out. *)

From Stdlib Require Import String Ascii List ZArith Bool Lia.
From Stdlib Require Import DecimalString DecimalZ DecimalPos.
Import ListNotations.
Set Warnings "-register-all".
Local Open Scope string_scope.
Local Open Scope Z_scope.

(* ================================================================= *)
(** ** JavaScript values used by the handlers *)

Module Js.

(** [!v] on a value that is a string or [undefined]: only [undefined] and
    the empty string are falsy. *)
Definition not (v : option string) : bool :=
  match v with
  | None => true
  | Some s => (s =? "")%string
  end.

(** The value of [v] once the guard [if (!v) return ...] has been passed. *)
Definition truthy (v : option string) : option string :=
  if not v then None else v.

(** [s.split(sep)] for a one-character separator: the pieces of [s] between
    the occurrences of [sep]; there is always at least one piece. *)
Fixpoint split (sep : ascii) (s : string) : list string :=
  match s with
  | EmptyString => [EmptyString]
  | String c rest =>
      if Ascii.eqb c sep then EmptyString :: split sep rest
      else match split sep rest with
           | piece :: pieces => String c piece :: pieces
           | [] => [String c EmptyString]
           end
  end.

(** [a[i]]: the element, or [undefined] out of range. *)
Definition index {A} (a : list A) (i : nat) : option A := nth_error a i.

Definition length (s : string) : Z := Z.of_nat (String.length s).

End Js.

(** JSON documents: response bodies and token claims. *)
Inductive Json : Type :=
| JNull
| JBool (b : bool)
| JNum (n : Z)
| JStr (s : string)
| JArr (items : list Json)
| JObj (fields : list (string * Json)).

(** The own properties of an object, in insertion order. *)
Definition Fields := list (string * Json).

(** [o.k]: the value of property [k], or [undefined]. *)
Fixpoint prop (k : string) (o : Fields) : option Json :=
  match o with
  | [] => None
  | (k', v) :: o' => if (k' =? k)%string then Some v else prop k o'
  end.

(** [o.k = v]: overwrite in place when [k] exists, else append. *)
Fixpoint set_prop (k : string) (v : Json) (o : Fields) : Fields :=
  match o with
  | [] => [(k, v)]
  | (k', v') :: o' =>
      if (k' =? k)%string then (k', v) :: o' else (k', v') :: set_prop k v o'
  end.

(** An object literal some of whose values may be [undefined]:
    [JSON.stringify] (so [res.json]) leaves such properties out. *)
Fixpoint literal (o : list (string * option Json)) : Fields :=
  match o with
  | [] => []
  | (k, Some v) :: o' => (k, v) :: literal o'
  | (_, None) :: o' => literal o'
  end.

Definition keys (o : Fields) : list string := map fst o.

(** An HTTP response: [res.status(status).json(body)]. *)
Record Response : Type := mkResponse { status : Z; body : Json }.

(* ================================================================= *)
(** ** The users table (database.js) *)

(** One row of
    [users (id INTEGER PRIMARY KEY AUTOINCREMENT, username TEXT NOT NULL UNIQUE,
            email TEXT NOT NULL UNIQUE, password_hash TEXT NOT NULL,
            created_at DATETIME DEFAULT CURRENT_TIMESTAMP)]. *)
Module User.
Record t : Type := make {
  id : Z;
  username : string;
  email : string;
  password_hash : string;
  created_at : string
}.
End User.

(** The table in rowid order, and the AUTOINCREMENT counter
    ([sqlite_sequence]): the largest rowid ever handed out. *)
Record Db : Type := mkDb { users : list User.t; seq : Z }.

Definition empty_db : Db := {| users := []; seq := 0 |}.

Module Sql.

(** [SELECT * FROM users WHERE username = ? OR email = ?], [.get]: the first
    matching row. *)
Definition get_by_username_or_email (u e : string) (d : Db) : option User.t :=
  find (fun r => (User.username r =? u)%string || (User.email r =? e)%string) (users d).

(** [SELECT * FROM users WHERE username = ?], [.get]. *)
Definition get_by_username (u : string) (d : Db) : option User.t :=
  find (fun r => (User.username r =? u)%string) (users d).

(** The row as [SELECT id, username, email, created_at] returns it. *)
Definition public_columns (r : User.t) : Json :=
  JObj [("id", JNum (User.id r)); ("username", JStr (User.username r));
        ("email", JStr (User.email r)); ("created_at", JStr (User.created_at r))].

(** [SELECT id, username, email, created_at FROM users WHERE id = ?], [.get]:
    the first row whose [id] equals the bound parameter.  [equals] is the
    comparison of an [id] with that parameter (see [bind_userId] for the
    parameter the profile route binds). *)
Definition get_public_by_id (equals : Z -> bool) (d : Db) : option Json :=
  option_map public_columns (find (fun r => equals (User.id r)) (users d)).

(** [SELECT id, username, email, created_at FROM users], [.all]. *)
Definition all_public (d : Db) : list Json := map public_columns (users d).

(** The rowid AUTOINCREMENT picks: one more than the largest ever used. *)
Definition next_rowid (d : Db) : Z :=
  Z.max (seq d) (fold_right (fun r m => Z.max (User.id r) m) 0 (users d)) + 1.

(** [INSERT INTO users (username, email, password_hash) VALUES (?, ?, ?)],
    [.run]: the UNIQUE constraints are checked, the row gets the next rowid
    and the default [created_at]; the result is [lastInsertRowid]. *)
Definition insert_user (u e h now : string) (d : Db) : string + (Z * Db) :=
  if existsb (fun r => (User.username r =? u)%string) (users d)
  then inl "UNIQUE constraint failed: users.username"
  else if existsb (fun r => (User.email r =? e)%string) (users d)
  then inl "UNIQUE constraint failed: users.email"
  else
    let rowid := next_rowid d in
    inr (rowid,
         {| users := users d ++ [User.make rowid u e h now]; seq := rowid |}).

End Sql.

(* ================================================================= *)
(** ** Request handling: state, early return and exceptions *)

(** What a request can be observed to do besides answering. *)
Inductive Event : Type :=
| ConsoleLog (msg : string)
| ConsoleError (msg : string)
| SqlStatement (sql : string)
| BcryptHash
| BcryptCompare
| JwtSign
| JwtVerify.

Record World : Type := mkWorld { db : Db; trace : list Event }.

(** Where a step of a handler leaves the request: control goes on ([Next]),
    a response has been sent and the handler returned ([Sent]), or an
    exception is propagating ([Thrown]). *)
Inductive Outcome (A : Type) : Type :=
| Next (a : A)
| Sent (r : Response)
| Thrown (message : string).
Arguments Next {A} a.
Arguments Sent {A} r.
Arguments Thrown {A} message.

Definition Handler (A : Type) : Type := World -> Outcome A * World.

Definition ret {A} (a : A) : Handler A := fun w => (Next a, w).

Definition bind {A B} (c : Handler A) (k : A -> Handler B) : Handler B :=
  fun w =>
    match c w with
    | (Next a, w') => k a w'
    | (Sent r, w') => (Sent r, w')
    | (Thrown m, w') => (Thrown m, w')
    end.

Notation "x <- c ;; k" := (bind c (fun x => k))
  (at level 61, c at next level, right associativity).
Notation "c ;; k" := (bind c (fun _ => k))
  (at level 61, right associativity).

(** [return res.status(s).json(b)], and the final [res.json] of a handler. *)
Definition respond {A} (s : Z) (b : Fields) : Handler A :=
  fun w => (Sent (mkResponse s (JObj b)), w).

Definition throw {A} (m : string) : Handler A := fun w => (Thrown m, w).

Definition emit (e : Event) : Handler unit :=
  fun w => (Next tt, {| db := db w; trace := trace w ++ [e] |}).

(** [try { c } catch (error) { k error.message }]. *)
Definition try_catch {A} (c : Handler A) (k : string -> Handler A) : Handler A :=
  fun w =>
    match c w with
    | (Thrown m, w') => k m w'
    | r => r
    end.

(** A prepared statement that reads: the statement is logged ([verbose]). *)
Definition query {A} (sql : string) (q : Db -> A) : Handler A :=
  emit (SqlStatement sql) ;; fun w => (Next (q (db w)), w).

(** A prepared statement that writes, or throws an SqliteError. *)
Definition execute {A} (sql : string) (q : Db -> string + (A * Db)) : Handler A :=
  emit (SqlStatement sql) ;;
  fun w =>
    match q (db w) with
    | inl err => (Thrown err, w)
    | inr (a, d) => (Next a, {| db := d; trace := trace w |})
    end.

(** A complete route: it always answers.  An exception that escapes the
    handler reaches Express's default error handler, which answers 500. *)
Definition Route : Type := Handler Empty_set.

Definition serve (h : Route) (w : World) : Response * World :=
  match h w with
  | (Sent r, w') => (r, w')
  | (Thrown m, w') => (mkResponse 500 (JStr m), w')
  | (Next impossible, _) => match impossible with end
  end.

(* ================================================================= *)
(** ** The libraries the handlers call *)

(** bcrypt: [hash] draws a random salt (given here), [compare] checks a
    password against a digest. *)
Class Bcrypt : Type := {
  bcrypt_hash : string -> Z -> string -> string;  (* password, rounds, salt *)
  bcrypt_compare : string -> string -> bool       (* password, digest *)
}.

Inductive TokenError : Type := Malformed | InvalidSignature | Expired.

Inductive Verification : Type :=
| Verified (decoded : Fields)
| Rejected (e : TokenError).

(** jsonwebtoken: [sign payload secret expiresIn] at a time, [verify token
    secret] at a time. *)
Class JsonWebToken : Type := {
  jwt_sign : Fields -> string -> Z -> Z -> string;
  jwt_verify : string -> string -> Z -> Verification
}.

(** [new Date(ms).toISOString()]; [None] is the RangeError of an invalid
    date. *)
Class JsDate : Type := { toISOString : Z -> option string }.

(** What the libraries make of a token claim that is not a number.  The
    claims come out of [jwt.verify] as any JSON value ([None] is
    [undefined]); the profile route hands [userId] to SQLite and multiplies
    [iat] by 1000.
    - [bind_id v]: the statement [... WHERE id = ?] with [v] bound.  SQLite
      gives the operand the INTEGER affinity of the column, so that the text
      ['1'] equals the id 1: [inl equals] is the resulting comparison with
      an id; [inr message] is the TypeError better-sqlite3 throws for a
      value it cannot bind.
    - [times_1000 v]: the number [v * 1000] after JavaScript's conversion of
      [v] to a number, as [new Date] takes it; [None] is [NaN]. *)
Class Coercion : Type := {
  bind_id : option Json -> (Z -> bool) + string;
  times_1000 : option Json -> option Z
}.

(** What the surroundings supply to one request. *)
Record Env : Type := mkEnv {
  clock : Z;                   (* seconds since the epoch *)
  salt : string;               (* the salt bcrypt.hash generates *)
  current_timestamp : string   (* SQLite's CURRENT_TIMESTAMP *)
}.

Definition error_message (e : TokenError) : string :=
  match e with
  | Malformed => "jwt malformed"
  | InvalidSignature => "invalid signature"
  | Expired => "jwt expired"
  end.

(* ================================================================= *)
(** ** auth.js and the routes of the server *)

(** [const JWT_SECRET = 'your-secret-key-change-this-in-production'] *)
Definition JWT_SECRET : string := "your-secret-key-change-this-in-production".

(** [{ expiresIn: '24h' }], in seconds. *)
Definition expiresIn_24h : Z := 24 * 60 * 60.

Module RegisterBody.
Record t : Type := make {
  username : option string;
  email : option string;
  password : option string
}.
End RegisterBody.

Module LoginBody.
Record t : Type := make {
  username : option string;
  password : option string
}.
End LoginBody.

Section Server.

Context {bcrypt : Bcrypt} {jwt : JsonWebToken} {date : JsDate}
        {coercion : Coercion}.

(** [await bcrypt.hash(password, 10)] *)
Definition hash_password (env : Env) (password : string) : Handler string :=
  emit BcryptHash ;; ret (bcrypt_hash password 10 (salt env)).

(** [await bcrypt.compare(password, user.password_hash)] *)
Definition compare_password (password digest : string) : Handler bool :=
  emit BcryptCompare ;; ret (bcrypt_compare password digest).

(** [jwt.sign(payload, JWT_SECRET, { expiresIn: '24h' })] *)
Definition sign_token (env : Env) (payload : Fields) : Handler string :=
  emit JwtSign ;; ret (jwt_sign payload JWT_SECRET expiresIn_24h (clock env)).

(** [app.post('/api/register', ...)] *)
Definition register_handler (env : Env) (body : RegisterBody.t) : Route :=
  try_catch
    (match Js.truthy (RegisterBody.username body),
           Js.truthy (RegisterBody.email body),
           Js.truthy (RegisterBody.password body) with
     | Some username, Some email, Some password =>
         if Js.length password <? 6 then
           respond 400
             [("error", JStr "Validation failed");
              ("message", JStr "Password must be at least 6 characters long")]
         else
           existingUser <-
             query "SELECT * FROM users WHERE username = ? OR email = ?"
                   (Sql.get_by_username_or_email username email) ;;
           match existingUser with
           | Some _ =>
               respond 400
                 [("error", JStr "User already exists");
                  ("message", JStr "Username or email is already taken")]
           | None =>
               emit (ConsoleLog "Hashing password...") ;;
               passwordHash <- hash_password env password ;;
               lastInsertRowid <-
                 execute
                   "INSERT INTO users (username, email, password_hash) VALUES (?, ?, ?)"
                   (Sql.insert_user username email passwordHash
                                    (current_timestamp env)) ;;
               emit (ConsoleLog "✓ User registered successfully") ;;
               respond 201
                 [("message", JStr "User registered successfully");
                  ("user", JObj [("id", JNum lastInsertRowid);
                                 ("username", JStr username);
                                 ("email", JStr email)]);
                  ("nextStep", JStr "Login at /api/login to receive your token")]
           end
     | _, _, _ =>
         respond 400
           [("error", JStr "Validation failed");
            ("message", JStr "Username, email, and password are required")]
     end)
    (fun message =>
       emit (ConsoleError ("Registration error: " ++ message)) ;;
       respond 500
         [("error", JStr "Registration failed"); ("message", JStr message)]).

(** [app.post('/api/login', ...)] *)
Definition login_handler (env : Env) (body : LoginBody.t) : Route :=
  try_catch
    (match Js.truthy (LoginBody.username body),
           Js.truthy (LoginBody.password body) with
     | Some username, Some password =>
         user <- query "SELECT * FROM users WHERE username = ?"
                       (Sql.get_by_username username) ;;
         match user with
         | None =>
             respond 401
               [("error", JStr "Authentication failed");
                ("message", JStr "Invalid username or password")]
         | Some user =>
             emit (ConsoleLog "Verifying password...") ;;
             passwordMatch <- compare_password password (User.password_hash user) ;;
             if negb passwordMatch then
               respond 401
                 [("error", JStr "Authentication failed");
                  ("message", JStr "Invalid username or password")]
             else
               let payload :=
                 [("userId", JNum (User.id user));
                  ("username", JStr (User.username user));
                  ("email", JStr (User.email user))] in
               token <- sign_token env payload ;;
               emit (ConsoleLog "✓ Login successful, token generated") ;;
               respond 200
                 [("message", JStr "Login successful");
                  ("token", JStr token);
                  ("expiresIn", JStr "24h");
                  ("user", JObj [("id", JNum (User.id user));
                                 ("username", JStr (User.username user));
                                 ("email", JStr (User.email user))]);
                  ("howToUse",
                   JStr "Include this token in the Authorization header: Bearer <token>")]
         end
     | _, _ =>
         respond 400
           [("error", JStr "Validation failed");
            ("message", JStr "Username and password are required")]
     end)
    (fun message =>
       emit (ConsoleError ("Login error: " ++ message)) ;;
       respond 500
         [("error", JStr "Login failed"); ("message", JStr message)]).

(** [function verifyToken(req, res, next)] of auth.js, given
    [req.headers.authorization].  [Next decoded] is the call of [next()]
    with [req.user = decoded]. *)
Definition verifyToken (env : Env) (authorization : option string)
  : Handler Fields :=
  match Js.truthy authorization with
  | None =>
      respond 401
        [("error", JStr "Access denied");
         ("message", JStr "No token provided. Please login first.")]
  | Some authHeader =>
      match Js.truthy (Js.index (Js.split " " authHeader) 1) with
      | None =>
          respond 401
            [("error", JStr "Access denied");
             ("message", JStr "Invalid token format. Use: Bearer <token>")]
      | Some token =>
          emit JwtVerify ;;
          match jwt_verify token JWT_SECRET (clock env) with
          | Verified decoded => ret decoded
          | Rejected e =>
              emit (ConsoleError
                      ("Token verification failed: " ++ error_message e)) ;;
              respond 401
                [("error", JStr "Invalid token");
                 ("message",
                  JStr "Token is invalid or expired. Please login again.")]
          end
      end
  end.

(** [req.user.iat * 1000]: the product for a number, JavaScript's conversion
    for any other value; [None] is [NaN]. *)
Definition iat_milliseconds (user : Fields) : option Z :=
  match prop "iat" user with
  | Some (JNum iat) => Some (iat * 1000)
  | other => times_1000 other
  end.

(** [new Date(req.user.iat * 1000).toISOString()] *)
Definition tokenIssuedAt (user : Fields) : Handler string :=
  match iat_milliseconds user with
  | Some ms =>
      match toISOString ms with
      | Some iso => ret iso
      | None => throw "Invalid time value"
      end
  | None => throw "Invalid time value"
  end.

(** [.get(req.user.userId)]: binding the parameter of [WHERE id = ?].  A
    number is compared with the id as it is; any other value goes through
    SQLite's conversion, or cannot be bound. *)
Definition bind_userId (param : option Json) : Handler (Z -> bool) :=
  match param with
  | Some (JNum n) => ret (fun id => id =? n)
  | other =>
      match bind_id other with
      | inl equals => ret equals
      | inr message => throw message
      end
  end.

(** [app.get('/api/profile', verifyToken, ...)] *)
Definition profile_handler (env : Env) (authorization : option string)
  : Route :=
  req_user <- verifyToken env authorization ;;
  equals <- bind_userId (prop "userId" req_user) ;;
  user <- query "SELECT id, username, email, created_at FROM users WHERE id = ?"
                (Sql.get_public_by_id equals) ;;
  match user with
  | None => respond 404 [("error", JStr "User not found")]
  | Some user =>
      issued <- tokenIssuedAt req_user ;;
      respond 200
        [("message", JStr "Profile retrieved successfully");
         ("note",
          JStr "This is a protected route - only accessible with a valid token");
         ("user", user);
         ("tokenInfo",
          JObj (literal [("userId", prop "userId" req_user);
                         ("username", prop "username" req_user);
                         ("tokenIssuedAt", Some (JStr issued))]))]
  end.

(** [app.get('/api/users', verifyToken, ...)] *)
Definition users_handler (env : Env) (authorization : option string)
  : Route :=
  req_user <- verifyToken env authorization ;;
  users <- query "SELECT id, username, email, created_at FROM users"
                 Sql.all_public ;;
  respond 200
    (literal [("message", Some (JStr "All users retrieved (protected route)"));
              ("requestedBy", prop "username" req_user);
              ("count", Some (JNum (Z.of_nat (List.length users))));
              ("users", Some (JArr users))]).

(** The four operations of the interface, as requests against a world. *)
Definition Register (env : Env) (body : RegisterBody.t) (w : World) :=
  serve (register_handler env body) w.
Definition Login (env : Env) (body : LoginBody.t) (w : World) :=
  serve (login_handler env body) w.
Definition Profile (env : Env) (authorization : option string) (w : World) :=
  serve (profile_handler env authorization) w.
Definition ListAccounts (env : Env) (authorization : option string) (w : World) :=
  serve (users_handler env authorization) w.

(** The guard in front of a downstream handler. *)
Definition AuthGuard (env : Env) (authorization : option string) (w : World)
  : Outcome Fields * World :=
  verifyToken env authorization w.

End Server.

(* ================================================================= *)
(** ** The token format of the specification *)

(** Does the string contain the character? *)
Fixpoint contains (c : ascii) (s : string) : bool :=
  match s with
  | EmptyString => false
  | String c' s' => Ascii.eqb c' c || contains c s'
  end.

(** base64url without padding, on bits: three bytes give four digits of six
    bits each, most significant bit first. *)
Module Base64url.

Definition alphabet : string :=
  "ABCDEFGHIJKLMNOPQRSTUVWXYZabcdefghijklmnopqrstuvwxyz0123456789-_".

Definition bit (b : bool) : nat := if b then 1%nat else 0%nat.

(** The digit of the six bits [b5 .. b0]. *)
Definition digit (b5 b4 b3 b2 b1 b0 : bool) : ascii :=
  let n := (32 * bit b5 + 16 * bit b4 + 8 * bit b3
            + 4 * bit b2 + 2 * bit b1 + bit b0)%nat in
  match String.get n alphabet with
  | Some c => c
  | None => "A"%char
  end.

Fixpoint position (c : ascii) (s : string) : option nat :=
  match s with
  | EmptyString => None
  | String c' s' =>
      if Ascii.eqb c' c then Some 0%nat else option_map S (position c s')
  end.

(** The six bits of a digit, [None] for a character outside the alphabet. *)
Definition bits (c : ascii) : option (bool * bool * bool * bool * bool * bool) :=
  match position c alphabet with
  | Some n =>
      Some (Nat.testbit n 5, Nat.testbit n 4, Nat.testbit n 3,
            Nat.testbit n 2, Nat.testbit n 1, Nat.testbit n 0)
  | None => None
  end.

Fixpoint encode (s : string) : string :=
  match s with
  | EmptyString => EmptyString
  | String (Ascii a0 a1 a2 a3 a4 a5 a6 a7) EmptyString =>
      String (digit a7 a6 a5 a4 a3 a2)
        (String (digit a1 a0 false false false false) EmptyString)
  | String (Ascii a0 a1 a2 a3 a4 a5 a6 a7)
      (String (Ascii b0 b1 b2 b3 b4 b5 b6 b7) EmptyString) =>
      String (digit a7 a6 a5 a4 a3 a2)
        (String (digit a1 a0 b7 b6 b5 b4)
           (String (digit b3 b2 b1 b0 false false) EmptyString))
  | String (Ascii a0 a1 a2 a3 a4 a5 a6 a7)
      (String (Ascii b0 b1 b2 b3 b4 b5 b6 b7)
         (String (Ascii c0 c1 c2 c3 c4 c5 c6 c7) rest)) =>
      String (digit a7 a6 a5 a4 a3 a2)
        (String (digit a1 a0 b7 b6 b5 b4)
           (String (digit b3 b2 b1 b0 c7 c6)
              (String (digit c5 c4 c3 c2 c1 c0) (encode rest))))
  end.

Fixpoint decode (s : string) : option string :=
  match s with
  | EmptyString => Some EmptyString
  | String _ EmptyString => None
  | String d1 (String d2 EmptyString) =>
      match bits d1, bits d2 with
      | Some (a7, a6, a5, a4, a3, a2), Some (a1, a0, _, _, _, _) =>
          Some (String (Ascii a0 a1 a2 a3 a4 a5 a6 a7) EmptyString)
      | _, _ => None
      end
  | String d1 (String d2 (String d3 EmptyString)) =>
      match bits d1, bits d2, bits d3 with
      | Some (a7, a6, a5, a4, a3, a2), Some (a1, a0, b7, b6, b5, b4),
        Some (b3, b2, b1, b0, _, _) =>
          Some (String (Ascii a0 a1 a2 a3 a4 a5 a6 a7)
                  (String (Ascii b0 b1 b2 b3 b4 b5 b6 b7) EmptyString))
      | _, _, _ => None
      end
  | String d1 (String d2 (String d3 (String d4 rest))) =>
      match bits d1, bits d2, bits d3, bits d4, decode rest with
      | Some (a7, a6, a5, a4, a3, a2), Some (a1, a0, b7, b6, b5, b4),
        Some (b3, b2, b1, b0, c7, c6), Some (c5, c4, c3, c2, c1, c0),
        Some tail =>
          Some (String (Ascii a0 a1 a2 a3 a4 a5 a6 a7)
                  (String (Ascii b0 b1 b2 b3 b4 b5 b6 b7)
                     (String (Ascii c0 c1 c2 c3 c4 c5 c6 c7) tail)))
      | _, _, _, _, _ => None
      end
  end.

End Base64url.

(** Modelled from the spec: the Token Issuer / Verifier of section 4.3.  The
    jsonwebtoken package the handlers call is not part of the sources; [issue]
    and [verify] follow the words of the specification.  The serialization of
    a claims object and the keyed signature are left open there, and are
    parameters here. *)
Module TokenSpec.
Section WithPrimitives.

Variable serialize : Json -> string.
Variable deserialize : string -> option Json.
Variable sign : string -> string -> string.  (* secret, signing input *)

(** The header: the algorithm identifier. *)
Definition header : Json := JObj [("alg", JStr "HS256"); ("typ", JStr "JWT")].

Definition segment (j : Json) : string := Base64url.encode (serialize j).

Definition signature (secret h p : string) : string :=
  Base64url.encode (sign secret (h ++ "." ++ p)).

(** The claims augmented with issued-at and computed expiry. *)
Definition augment (claims : Fields) (ttl now : Z) : Fields :=
  set_prop "exp" (JNum (now + ttl)) (set_prop "iat" (JNum now) claims).

(** [issue(claims, secret, ttl) -> token], at time [now]: three
    dot-separated segments. *)
Definition issue (claims : Fields) (secret : string) (ttl now : Z) : string :=
  let h := segment header in
  let p := segment (JObj (augment claims ttl now)) in
  h ++ "." ++ p ++ "." ++ signature secret h p.

Definition decode_claims (p : string) : option Fields :=
  match Base64url.decode p with
  | Some text =>
      match deserialize text with
      | Some (JObj claims) => Some claims
      | _ => None
      end
  | None => None
  end.

(** [verify(token, secret) -> claims | fails(...)], at time [now]:
    1. split into exactly three segments, else Malformed;
    2. recompute the signature over segments 1-2, mismatch is
       InvalidSignature;
    3. decode the claims; current time >= embedded expiry is Expired;
    4. otherwise return the decoded claims. *)
Definition verify (token secret : string) (now : Z) : Verification :=
  match Js.split "." token with
  | [h; p; s] =>
      if (s =? signature secret h p)%string then
        match decode_claims p with
        | Some claims =>
            match prop "exp" claims with
            | Some (JNum exp) =>
                if exp <=? now then Rejected Expired else Verified claims
            | _ => Verified claims
            end
        | None => Rejected Malformed
        end
      else Rejected InvalidSignature
  | _ => Rejected Malformed
  end.

Definition library : JsonWebToken :=
  {| jwt_sign := issue; jwt_verify := verify |}.

End WithPrimitives.
End TokenSpec.

(** Modelled from the spec: the serialization of the header and of the
    claims, which section 4.3 leaves open and the sources do not contain.
    JSON text as [JSON.stringify] writes and [JSON.parse] reads it, without
    white space; in a string, the quote and the backslash are escaped. *)
Module JsonText.

(** The double quote character. *)
Definition dquote : ascii := ascii_of_nat 34.

Fixpoint quote_body (s : string) : string :=
  match s with
  | EmptyString => EmptyString
  | String c s' =>
      if Ascii.eqb c dquote || Ascii.eqb c "\"
      then String "\" (String c (quote_body s'))
      else String c (quote_body s')
  end.

Definition quote (s : string) : string :=
  String dquote (quote_body s ++ String dquote EmptyString).

Definition print_number (n : Z) : string := NilZero.string_of_int (Z.to_int n).

Fixpoint print (j : Json) : string :=
  match j with
  | JNull => "null"
  | JBool true => "true"
  | JBool false => "false"
  | JNum n => print_number n
  | JStr s => quote s
  | JArr items =>
      "[" ++ (fix elements (l : list Json) : string :=
                match l with
                | [] => ""
                | [x] => print x
                | x :: l' => print x ++ "," ++ elements l'
                end) items ++ "]"
  | JObj fields =>
      "{" ++ (fix members (l : list (string * Json)) : string :=
                match l with
                | [] => ""
                | [(k, v)] => quote k ++ ":" ++ print v
                | (k, v) :: l' => quote k ++ ":" ++ print v ++ "," ++ members l'
                end) fields ++ "}"
  end.

(** The text between the brackets of an array, and between the braces of an
    object. *)
Fixpoint print_elements (l : list Json) : string :=
  match l with
  | [] => ""
  | [x] => print x
  | x :: l' => print x ++ "," ++ print_elements l'
  end.

Fixpoint print_members (l : list (string * Json)) : string :=
  match l with
  | [] => ""
  | [(k, v)] => quote k ++ ":" ++ print v
  | (k, v) :: l' => quote k ++ ":" ++ print v ++ "," ++ print_members l'
  end.

Fixpoint strip_prefix (p s : string) : option string :=
  match p, s with
  | EmptyString, _ => Some s
  | String a p', String b s' =>
      if Ascii.eqb a b then strip_prefix p' s' else None
  | _, _ => None
  end.

(** The text after an opening quote: the string and what follows the
    closing quote. *)
Fixpoint read_string (s : string) : option (string * string) :=
  match s with
  | EmptyString => None
  | String c s' =>
      if Ascii.eqb c dquote then Some (EmptyString, s')
      else if Ascii.eqb c "\" then
        match s' with
        | String e s'' =>
            match read_string s'' with
            | Some (t, r) => Some (String e t, r)
            | None => None
            end
        | EmptyString => None
        end
      else
        match read_string s' with
        | Some (t, r) => Some (String c t, r)
        | None => None
        end
  end.

Definition is_number_char (c : ascii) : bool :=
  Ascii.eqb c "-" || ((48 <=? nat_of_ascii c)%nat && (nat_of_ascii c <=? 57)%nat).

Fixpoint span_number (s : string) : string * string :=
  match s with
  | EmptyString => (EmptyString, EmptyString)
  | String c s' =>
      if is_number_char c
      then let (n, r) := span_number s' in (String c n, r)
      else (EmptyString, s)
  end.

Definition read_number (s : string) : option (Json * string) :=
  let (digits, r) := span_number s in
  match NilZero.int_of_string digits with
  | Some n => Some (JNum (Z.of_int n), r)
  | None => None
  end.

Fixpoint read_value (fuel : nat) (s : string) : option (Json * string) :=
  match fuel with
  | O => None
  | S fuel' =>
      match s with
      | String "n" _ => option_map (pair JNull) (strip_prefix "null" s)
      | String "t" _ => option_map (pair (JBool true)) (strip_prefix "true" s)
      | String "f" _ => option_map (pair (JBool false)) (strip_prefix "false" s)
      | String "[" (String "]" r) => Some (JArr [], r)
      | String "[" s' =>
          match read_elements fuel' s' with
          | Some (l, r) => Some (JArr l, r)
          | None => None
          end
      | String "{" (String "}" r) => Some (JObj [], r)
      | String "{" s' =>
          match read_members fuel' s' with
          | Some (l, r) => Some (JObj l, r)
          | None => None
          end
      | String c s' =>
          if Ascii.eqb c dquote then
            match read_string s' with
            | Some (t, r) => Some (JStr t, r)
            | None => None
            end
          else read_number s
      | EmptyString => None
      end
  end
with read_elements (fuel : nat) (s : string) : option (list Json * string) :=
  match fuel with
  | O => None
  | S fuel' =>
      match read_value fuel' s with
      | Some (v, String "," r) =>
          match read_elements fuel' r with
          | Some (l, r') => Some (v :: l, r')
          | None => None
          end
      | Some (v, String "]" r) => Some ([v], r)
      | _ => None
      end
  end
with read_members (fuel : nat) (s : string)
  : option (list (string * Json) * string) :=
  match fuel with
  | O => None
  | S fuel' =>
      match s with
      | String c s' =>
          if Ascii.eqb c dquote then
            match read_string s' with
            | Some (k, String ":" r) =>
                match read_value fuel' r with
                | Some (v, String "," r') =>
                    match read_members fuel' r' with
                    | Some (l, r'') => Some ((k, v) :: l, r'')
                    | None => None
                    end
                | Some (v, String "}" r') => Some ([(k, v)], r')
                | _ => None
                end
            | _ => None
            end
          else None
      | EmptyString => None
      end
  end.

Definition read (s : string) : option Json :=
  match read_value (String.length s) s with
  | Some (j, EmptyString) => Some j
  | _ => None
  end.

(** The depth of calls reading a document takes. *)
Fixpoint size (j : Json) : nat :=
  match j with
  | JArr l =>
      S ((fix sizes (l : list Json) : nat :=
            match l with
            | [] => O
            | x :: l' => S (size x + sizes l')
            end) l)
  | JObj l =>
      S ((fix sizes (l : list (string * Json)) : nat :=
            match l with
            | [] => O
            | (_, v) :: l' => S (size v + sizes l')
            end) l)
  | _ => 1%nat
  end.

Fixpoint sizes (l : list Json) : nat :=
  match l with
  | [] => O
  | x :: l' => S (size x + sizes l')
  end.

Fixpoint member_sizes (l : list (string * Json)) : nat :=
  match l with
  | [] => O
  | (_, v) :: l' => S (size v + member_sizes l')
  end.

(** What may follow a value in a JSON text: nothing, or a character that
    cannot continue a number. *)
Definition delimited (rest : string) : Prop :=
  match rest with
  | EmptyString => True
  | String c _ => is_number_char c = false
  end.

(** The characters a printed value can start with. *)
Definition starts_value (c : ascii) : bool :=
  is_number_char c || Ascii.eqb c dquote || Ascii.eqb c "n" || Ascii.eqb c "t"
  || Ascii.eqb c "f" || Ascii.eqb c "[" || Ascii.eqb c "{".

End JsonText.

(** Induction on a document, with the property for the elements of an array
    and the values of an object. *)
Section JsonInduction.

Variable P : Json -> Prop.
Hypothesis HNull : P JNull.
Hypothesis HBool : forall b, P (JBool b).
Hypothesis HNum : forall n, P (JNum n).
Hypothesis HStr : forall s, P (JStr s).
Hypothesis HArr : forall l, Forall P l -> P (JArr l).
Hypothesis HObj : forall l, Forall (fun kv => P (snd kv)) l -> P (JObj l).

Fixpoint Json_nested_ind (j : Json) : P j :=
  match j with
  | JNull => HNull
  | JBool b => HBool b
  | JNum n => HNum n
  | JStr s => HStr s
  | JArr l =>
      HArr l ((fix all (l : list Json) : Forall P l :=
                 match l with
                 | [] => Forall_nil P
                 | x :: l' => Forall_cons x (Json_nested_ind x) (all l')
                 end) l)
  | JObj l =>
      HObj l ((fix all (l : list (string * Json))
                 : Forall (fun kv => P (snd kv)) l :=
                 match l with
                 | [] => Forall_nil _
                 | kv :: l' =>
                     Forall_cons kv (Json_nested_ind (snd kv)) (all l')
                 end) l)
  end.

End JsonInduction.

(* ================================================================= *)
(** ** Executable instances of the libraries

    Small stand-ins on which the handlers can be run: a keyed checksum in the
    place of HMAC-SHA256 and of bcrypt's digest (same interface, no
    cryptographic strength), and the ISO rendering of a timestamp.  The
    general theorems do not depend on them. *)
Module Reference.

(** *** A keyed checksum *)

Definition checksum (s : string) : N :=
  fold_left (fun acc c => ((acc * 31 + N_of_ascii c) mod 4294967296)%N)
            (list_ascii_of_string s) 7%N.

Definition word_bytes (n : N) : string :=
  String (ascii_of_N (n / 16777216 mod 256))
    (String (ascii_of_N (n / 65536 mod 256))
       (String (ascii_of_N (n / 256 mod 256))
          (String (ascii_of_N (n mod 256)) EmptyString))).

Definition sign (secret message : string) : string :=
  word_bytes (checksum (secret ++ "." ++ message)).

Definition jwt : JsonWebToken :=
  TokenSpec.library JsonText.print JsonText.read sign.

(** *** A stand-in for bcrypt: ["$2b$10$" ++ salt ++ digest], with a salt
    of 22 characters. *)

Definition digest (salt0 password : string) : string :=
  Base64url.encode (word_bytes (checksum (salt0 ++ password))).

Definition hash (password : string) (rounds : Z) (salt0 : string) : string :=
  "$2b$" ++ JsonText.print_number rounds ++ "$" ++ salt0 ++ digest salt0 password.

Definition compare (password stored : string) : bool :=
  let salt0 := substring 7 22 stored in
  (substring 29 (String.length stored - 29) stored =? digest salt0 password)%string.

Definition bcrypt : Bcrypt := {| bcrypt_hash := hash; bcrypt_compare := compare |}.

(** *** [toISOString] *)

Definition pad (width : nat) (n : Z) : string :=
  let s := JsonText.print_number n in
  string_of_list_ascii (repeat "0"%char (width - String.length s)) ++ s.

(** The civil date of a day number counted from 1970-01-01. *)
Definition civil (days : Z) : Z * Z * Z :=
  let z := days + 719468 in
  let era := z / 146097 in
  let doe := z - era * 146097 in
  let yoe := (doe - doe / 1460 + doe / 36524 - doe / 146096) / 365 in
  let doy := doe - (365 * yoe + yoe / 4 - yoe / 100) in
  let mp := (5 * doy + 2) / 153 in
  let d := doy - (153 * mp + 2) / 5 + 1 in
  let m := if mp <? 10 then mp + 3 else mp - 9 in
  let y := yoe + era * 400 + (if m <=? 2 then 1 else 0) in
  (y, m, d).

Definition iso (ms : Z) : option string :=
  if Z.abs ms <=? 8640000000000000 then
    let '(y, m, d) := civil (ms / 86400000) in
    let t := ms mod 86400000 in
    let year :=
      if (0 <=? y) && (y <=? 9999) then pad 4 y
      else (if y <? 0 then "-" else "+") ++ pad 6 (Z.abs y) in
    Some (year ++ "-" ++ pad 2 m ++ "-" ++ pad 2 d ++ "T"
          ++ pad 2 (t / 3600000) ++ ":" ++ pad 2 (t / 60000 mod 60) ++ ":"
          ++ pad 2 (t / 1000 mod 60) ++ "." ++ pad 3 (t mod 1000) ++ "Z")
  else None.

Definition date : JsDate := {| toISOString := iso |}.

(** *** A stand-in for the conversions of a claim that is not a number: a
    text holding a whole number in decimal counts as that number. *)

Definition whole (s : string) : option Z :=
  option_map Z.of_int (NilZero.int_of_string s).

Definition bound (v : option Json) : (Z -> bool) + string :=
  match v with
  | Some (JNum n) => inl (fun id => id =? n)
  | Some (JStr s) =>
      match whole s with
      | Some n => inl (fun id => id =? n)
      | None => inl (fun _ => false)
      end
  | Some JNull => inl (fun _ => false)
  | None => inr "Too few parameter values were provided"
  | Some _ =>
      inr "SQLite3 can only bind numbers, strings, bigints, buffers, and null"
  end.

Definition milliseconds (v : option Json) : option Z :=
  match v with
  | Some (JNum n) => Some (n * 1000)
  | Some (JStr s) =>
      if (s =? "")%string then Some 0
      else option_map (fun n => n * 1000) (whole s)
  | Some JNull => Some 0
  | Some (JBool b) => Some (if b then 1000 else 0)
  | _ => None
  end.

Definition coercion : Coercion := {| bind_id := bound; times_1000 := milliseconds |}.

End Reference.

(* ================================================================= *)
(** ** The error taxonomy of the specification, as the code answers it *)

Definition error_of (r : Response) : option Json :=
  match body r with
  | JObj o => prop "error" o
  | _ => None
  end.

(** ValidationError: 400, [error: 'Validation failed']. *)
Definition ValidationError (r : Response) : Prop :=
  status r = 400 /\ error_of r = Some (JStr "Validation failed").

(** DuplicateAccount: 400, [error: 'User already exists']. *)
Definition DuplicateAccount : Response :=
  mkResponse 400
    (JObj [("error", JStr "User already exists");
           ("message", JStr "Username or email is already taken")]).

(** The answer of both presence checks of the register handler. *)
Definition RegisterFieldsRequired : Response :=
  mkResponse 400
    (JObj [("error", JStr "Validation failed");
           ("message", JStr "Username, email, and password are required")]).

Definition PasswordTooShort : Response :=
  mkResponse 400
    (JObj [("error", JStr "Validation failed");
           ("message", JStr "Password must be at least 6 characters long")]).

Definition LoginFieldsRequired : Response :=
  mkResponse 400
    (JObj [("error", JStr "Validation failed");
           ("message", JStr "Username and password are required")]).

(** InvalidCredentials: 401, the one body of both login failures. *)
Definition InvalidCredentials : Response :=
  mkResponse 401
    (JObj [("error", JStr "Authentication failed");
           ("message", JStr "Invalid username or password")]).

Definition MissingToken : Response :=
  mkResponse 401
    (JObj [("error", JStr "Access denied");
           ("message", JStr "No token provided. Please login first.")]).

Definition MalformedHeader : Response :=
  mkResponse 401
    (JObj [("error", JStr "Access denied");
           ("message", JStr "Invalid token format. Use: Bearer <token>")]).

Definition InvalidToken : Response :=
  mkResponse 401
    (JObj [("error", JStr "Invalid token");
           ("message", JStr "Token is invalid or expired. Please login again.")]).

(** The property names of a response body. *)
Definition property_names (b : Json) : list string :=
  match b with
  | JObj o => keys o
  | _ => []
  end.

(** The account objects a response body carries: its [user] property and the
    elements of its [users] array. *)
Definition account_projections (b : Json) : list Json :=
  match b with
  | JObj o =>
      match prop "user" o with Some u => [u] | None => [] end
      ++ match prop "users" o with Some (JArr l) => l | _ => [] end
  | _ => []
  end.

(** An object with exactly the listed property names, in order. *)
Definition has_keys (ks : list string) (j : Json) : Prop :=
  exists o, j = JObj o /\ keys o = ks.

(** The shape of an account object that may leave the server: id, username
    and email, with or without created_at, and nothing else. *)
Definition public_projection (a : Json) : Prop :=
  has_keys ["id"; "username"; "email"] a
  \/ has_keys ["id"; "username"; "email"; "created_at"] a.

(** The columns of an account other than the digest. *)
Definition public (r : User.t) : Z * string * string * string :=
  (User.id r, User.username r, User.email r, User.created_at r).

(** Two worlds that differ at most in the stored digests. *)
Definition same_public (w w' : World) : Prop :=
  map public (users (db w)) = map public (users (db w'))
  /\ seq (db w) = seq (db w').

(** The [token] property of a response body. *)
Definition token_of (r : Response) : option Json :=
  match body r with
  | JObj o => prop "token" o
  | _ => None
  end.

Definition successful (r : Response) : Prop := 200 <= status r < 300.

(** Requests, run one after the other. *)
Inductive Request : Type :=
| PostRegister (env : Env) (body : RegisterBody.t)
| PostLogin (env : Env) (body : LoginBody.t)
| GetProfile (env : Env) (authorization : option string)
| GetUsers (env : Env) (authorization : option string).

Section Requests.

Context {bcrypt : Bcrypt} {jwt : JsonWebToken} {date : JsDate}
        {coercion : Coercion}.

Definition handle (q : Request) (w : World) : Response * World :=
  match q with
  | PostRegister env body => Register env body w
  | PostLogin env body => Login env body w
  | GetProfile env authorization => Profile env authorization w
  | GetUsers env authorization => ListAccounts env authorization w
  end.

Fixpoint run (qs : list Request) (w : World) : World :=
  match qs with
  | [] => w
  | q :: qs' => run qs' (snd (handle q w))
  end.

(** The world a successful registration leaves behind. *)
Definition registered (env : Env) (u e p : string) (w : World) : World :=
  let rowid := Sql.next_rowid (db w) in
  {| db := {| users := users (db w) ++
                [User.make rowid u e (bcrypt_hash p 10 (salt env))
                           (current_timestamp env)];
              seq := rowid |};
     trace := trace w ++
       [SqlStatement "SELECT * FROM users WHERE username = ? OR email = ?";
        ConsoleLog "Hashing password..."; BcryptHash;
        SqlStatement
          "INSERT INTO users (username, email, password_hash) VALUES (?, ?, ?)";
        ConsoleLog "✓ User registered successfully"] |}.

(** The answer to a successful registration. *)
Definition Created (rowid : Z) (u e : string) : Response :=
  mkResponse 201
    (JObj [("message", JStr "User registered successfully");
           ("user", JObj [("id", JNum rowid); ("username", JStr u);
                          ("email", JStr e)]);
           ("nextStep", JStr "Login at /api/login to receive your token")]).

(** The answer to a successful login of the account [r]. *)
Definition LoggedIn (env : Env) (r : User.t) : Response :=
  mkResponse 200
    (JObj [("message", JStr "Login successful");
           ("token",
            JStr (jwt_sign [("userId", JNum (User.id r));
                            ("username", JStr (User.username r));
                            ("email", JStr (User.email r))]
                           JWT_SECRET expiresIn_24h (clock env)));
           ("expiresIn", JStr "24h");
           ("user", JObj [("id", JNum (User.id r));
                          ("username", JStr (User.username r));
                          ("email", JStr (User.email r))]);
           ("howToUse",
            JStr "Include this token in the Authorization header: Bearer <token>")]).

End Requests.

(** The scenario of the specification, on the executable instances. *)
Module Scenario.

#[local] Existing Instance Reference.bcrypt.
#[local] Existing Instance Reference.jwt.
#[local] Existing Instance Reference.date.
#[local] Existing Instance Reference.coercion.

Definition start : World := {| db := empty_db; trace := [] |}.

Definition day1 : Env :=
  {| clock := 1706123456; salt := "N9qo8uLOickgx2ZMRZoMye";
     current_timestamp := "2024-01-24 19:10:56" |}.

Definition alice : RegisterBody.t :=
  RegisterBody.make (Some "alice") (Some "alice@example.com") (Some "secret1").

Definition alice_login : LoginBody.t :=
  LoginBody.make (Some "alice") (Some "secret1").

(** The store once alice has registered. *)
Definition with_alice : World := snd (Register day1 alice start).

Definition alice_row : User.t :=
  User.make 1 "alice" "alice@example.com"
    (bcrypt_hash "secret1" 10 (salt day1)) (current_timestamp day1).

(** The token a login of alice at [day1] returns. *)
Definition alice_token : string :=
  jwt_sign [("userId", JNum 1); ("username", JStr "alice");
            ("email", JStr "alice@example.com")]
           JWT_SECRET expiresIn_24h (clock day1).

(** One hour later. *)
Definition later : Env :=
  {| clock := 1706127056; salt := "aaaaaaaaaaaaaaaaaaaaaa";
     current_timestamp := "2024-01-24 20:10:56" |}.

(** A token for alice signed under another secret. *)
Definition forged_token : string :=
  jwt_sign [("userId", JNum 1); ("username", JStr "alice");
            ("email", JStr "alice@example.com")]
           "another-secret" expiresIn_24h (clock day1).

End Scenario.

(** A body field or header that the check [!v] takes as missing: absent, or
    the empty string. *)
Definition missing (v : option string) : Prop := v = None \/ v = Some "".

(** A body field that is present and not the empty string. *)
Definition given (v : option string) (s : string) : Prop :=
  v = Some s /\ s <> "".

(** No account of the store has the username or the email. *)
Definition unused (u e : string) (d : Db) : Prop :=
  forall r, In r (users d) -> User.username r <> u /\ User.email r <> e.

(* ================================================================= *)
(** ** Further definitions: the store's constraints *)

(** What the table declares: usernames, emails and ids are each unique
    ([UNIQUE], [UNIQUE], [PRIMARY KEY]). *)
Definition consistent (d : Db) : Prop :=
  NoDup (map User.username (users d))
  /\ NoDup (map User.email (users d))
  /\ NoDup (map User.id (users d)).

(* ================================================================= *)
(** ** Further definitions: a registration that overlaps other requests *)

(** The register handler is [async]: it awaits [bcrypt.hash] (line 109)
    between its SELECT (line 91) and its INSERT (lines 121-123), and while
    it waits the server handles other requests.  [Register] is the handler
    with nothing handled in between; here the handler is cut at the
    [await]. *)
Section Overlap.

Context {bcrypt : Bcrypt} {jwt : JsonWebToken} {date : JsDate}
        {coercion : Coercion}.

(** The handler up to the [await] (lines 66-109): the two validations, the
    SELECT, and the call of [bcrypt.hash].  [Next] carries the username, the
    email and the password on to the rest. *)
Definition register_until_await (body : RegisterBody.t)
  : Handler (string * string * string) :=
  match Js.truthy (RegisterBody.username body),
        Js.truthy (RegisterBody.email body),
        Js.truthy (RegisterBody.password body) with
  | Some username, Some email, Some password =>
      if Js.length password <? 6 then
        respond 400
          [("error", JStr "Validation failed");
           ("message", JStr "Password must be at least 6 characters long")]
      else
        existingUser <-
          query "SELECT * FROM users WHERE username = ? OR email = ?"
                (Sql.get_by_username_or_email username email) ;;
        match existingUser with
        | Some _ =>
            respond 400
              [("error", JStr "User already exists");
               ("message", JStr "Username or email is already taken")]
        | None =>
            emit (ConsoleLog "Hashing password...") ;;
            emit BcryptHash ;;
            ret (username, email, password)
        end
  | _, _, _ =>
      respond 400
        [("error", JStr "Validation failed");
         ("message", JStr "Username, email, and password are required")]
  end.

(** The handler from the [await] on (lines 109-134): the digest is there,
    the INSERT runs, the answer is 201. *)
Definition register_after_await (env : Env)
    (fields : string * string * string) : Route :=
  let '(username, email, password) := fields in
  let passwordHash := bcrypt_hash password 10 (salt env) in
  lastInsertRowid <-
    execute
      "INSERT INTO users (username, email, password_hash) VALUES (?, ?, ?)"
      (Sql.insert_user username email passwordHash (current_timestamp env)) ;;
  emit (ConsoleLog "✓ User registered successfully") ;;
  respond 201
    [("message", JStr "User registered successfully");
     ("user", JObj [("id", JNum lastInsertRowid);
                    ("username", JStr username);
                    ("email", JStr email)]);
     ("nextStep", JStr "Login at /api/login to receive your token")].

(** The [catch] block of the handler (lines 136-142). *)
Definition register_failed (message : string) : Route :=
  emit (ConsoleError ("Registration error: " ++ message)) ;;
  respond 500
    [("error", JStr "Registration failed"); ("message", JStr message)].

(** One registration, with the requests [between] handled while it awaits
    the digest. *)
Definition Register_across (env : Env) (body : RegisterBody.t)
    (between : list Request) (w : World) : Response * World :=
  match register_until_await body w with
  | (Next fields, awaiting) =>
      serve (try_catch (register_after_await env fields) register_failed)
            (run between awaiting)
  | (Sent r, w') => (r, w')
  | (Thrown message, w') => serve (register_failed message) w'
  end.

End Overlap.

(** The largest rowid SQLite can hand out. *)
Definition max_rowid : Z := 9223372036854775807.

(* ================================================================= *)
(** ** The in-memory product store (data.js) and its REST routes *)

(** The JavaScript values a product holds and the built-ins the routes apply
    to them.  The routes store and return these values and only ever test
    [!name] and compare with [undefined]; numbers such as [999.99] stay
    opaque. *)
Class JsValues : Type := {
  Value : Type;
  falsy : Value -> bool;              (* [!v] *)
  parseFloat : Value -> Value;
  parseInt : string -> option Z;      (* [None] is NaN *)
  id_text : option Z -> string;       (* the id in a template literal *)
  text : string -> Value;             (* a string literal *)
  number : string -> Value;           (* a numeric literal, by its text *)
  boolean : bool -> Value
}.

Module Product.
Record t {js : JsValues} : Type := make {
  id : Z;
  name : Value;
  price : Value;
  inStock : Value
}.
Arguments make {js} id name price inStock.
End Product.

Module ProductBody.
Record t {js : JsValues} : Type := make {
  name : option Value;
  price : option Value;
  inStock : option Value
}.
Arguments make {js} name price inStock.
End ProductBody.

Module Rest.
Section WithValues.

Context {js : JsValues}.

(** [products] and [nextId] of data.js. *)
Record Store : Type := mkStore { products : list Product.t; nextId : Z }.

Definition initial : Store :=
  {| products :=
       [Product.make 1 (text "Laptop") (number "999.99") (boolean true);
        Product.make 2 (text "Mouse") (number "29.99") (boolean true);
        Product.make 3 (text "Keyboard") (number "79.99") (boolean false);
        Product.make 4 (text "Monitor") (number "299.99") (boolean true)];
     nextId := 5 |}.

(** [getNextId: () => nextId++] *)
Definition getNextId (s : Store) : Z * Store :=
  (nextId s, {| products := products s; nextId := nextId s + 1 |}).

(** The bodies the routes send. *)
Inductive Body : Type :=
| All (list : list Product.t)                       (* [res.json(products)] *)
| One (product : Product.t)                         (* [res.json(product)] *)
| Done (message : string) (product : Product.t)     (* [{ message, product }] *)
| Failure (error message : string).                 (* [{ error, message }] *)

Record Reply : Type := mkReply { code : Z; content : Body }.

(** [p.id === id] *)
Definition has_id (id : option Z) (p : Product.t) : bool :=
  match id with
  | Some n => Product.id p =? n
  | None => false
  end.

(** [a.findIndex(f)]; [None] is -1. *)
Fixpoint findIndex {A} (f : A -> bool) (a : list A) : option nat :=
  match a with
  | [] => None
  | x :: a' => if f x then Some O else option_map S (findIndex f a')
  end.

(** [a[i] = f(a[i])] *)
Fixpoint update_at {A} (i : nat) (f : A -> A) (a : list A) : list A :=
  match a, i with
  | [], _ => []
  | x :: a', O => f x :: a'
  | x :: a', S i' => x :: update_at i' f a'
  end.

(** [a.splice(i, 1)]: what is left of [a]. *)
Fixpoint remove_at {A} (i : nat) (a : list A) : list A :=
  match a, i with
  | [], _ => []
  | _ :: a', O => a'
  | x :: a', S i' => x :: remove_at i' a'
  end.

Definition not_found (id : option Z) : Reply :=
  mkReply 404
    (Failure "Product not found" ("No product exists with ID " ++ id_text id)).

(** [!v] for a property that may be absent. *)
Definition absent_or_falsy (v : option Value) : bool :=
  match v with
  | None => true
  | Some x => falsy x
  end.

(** [app.get('/api/products', ...)] *)
Definition get_products (s : Store) : Reply * Store :=
  (mkReply 200 (All (products s)), s).

(** [app.get('/api/products/:id', ...)] *)
Definition get_product (param : string) (s : Store) : Reply * Store :=
  let id := parseInt param in
  match find (has_id id) (products s) with
  | Some product => (mkReply 200 (One product), s)
  | None => (not_found id, s)
  end.

(** [app.post('/api/products', ...)] *)
Definition post_product (body : ProductBody.t) (s : Store) : Reply * Store :=
  match ProductBody.name body, ProductBody.price body with
  | Some name, Some price =>
      if falsy name then
        (mkReply 400
           (Failure "Invalid data" "Name and price are required fields"), s)
      else
        let (id, s1) := getNextId s in
        let newProduct :=
          Product.make id name (parseFloat price)
            (match ProductBody.inStock body with
             | Some inStock => inStock
             | None => boolean true
             end) in
        (mkReply 201 (Done "Product created successfully" newProduct),
         {| products := products s1 ++ [newProduct]; nextId := nextId s1 |})
  | _, _ =>
      (mkReply 400
         (Failure "Invalid data" "Name and price are required fields"), s)
  end.

(** The three conditional assignments of the PUT route. *)
Definition assign (body : ProductBody.t) (p : Product.t) : Product.t :=
  let p1 :=
    match ProductBody.name body with
    | Some name => Product.make (Product.id p) name (Product.price p)
                                (Product.inStock p)
    | None => p
    end in
  let p2 :=
    match ProductBody.price body with
    | Some price => Product.make (Product.id p1) (Product.name p1)
                                 (parseFloat price) (Product.inStock p1)
    | None => p1
    end in
  match ProductBody.inStock body with
  | Some inStock => Product.make (Product.id p2) (Product.name p2)
                                 (Product.price p2) inStock
  | None => p2
  end.

(** [app.put('/api/products/:id', ...)] *)
Definition put_product (param : string) (body : ProductBody.t) (s : Store)
  : Reply * Store :=
  let id := parseInt param in
  match findIndex (has_id id) (products s) with
  | None => (not_found id, s)
  | Some index =>
      let updated := update_at index (assign body) (products s) in
      match nth_error updated index with
      | Some product =>
          (mkReply 200 (Done "Product updated successfully" product),
           {| products := updated; nextId := nextId s |})
      | None =>
          (mkReply 500 (Failure "TypeError" "products[index] is undefined"), s)
      end
  end.

(** [app.delete('/api/products/:id', ...)] *)
Definition delete_product (param : string) (s : Store) : Reply * Store :=
  let id := parseInt param in
  match findIndex (has_id id) (products s) with
  | None => (not_found id, s)
  | Some index =>
      match nth_error (products s) index with
      | Some deletedProduct =>
          (mkReply 200 (Done "Product deleted successfully" deletedProduct),
           {| products := remove_at index (products s); nextId := nextId s |})
      | None =>
          (mkReply 500 (Failure "TypeError" "products[index] is undefined"), s)
      end
  end.

(** The requests of the REST API, run one after the other. *)
Inductive Call : Type :=
| GetAll
| GetOne (param : string)
| Post (body : ProductBody.t)
| Put (param : string) (body : ProductBody.t)
| Delete (param : string).

Definition call (c : Call) (s : Store) : Reply * Store :=
  match c with
  | GetAll => get_products s
  | GetOne param => get_product param s
  | Post body => post_product body s
  | Put param body => put_product param body s
  | Delete param => delete_product param s
  end.

Fixpoint calls (cs : list Call) (s : Store) : Store :=
  match cs with
  | [] => s
  | c :: cs' => calls cs' (snd (call c s))
  end.

(** Every product id is below [nextId], and no id occurs twice. *)
Definition sound (s : Store) : Prop :=
  NoDup (map Product.id (products s))
  /\ forall p, In p (products s) -> Product.id p < nextId s.

End WithValues.
End Rest.

(** Stand-in values on which the product routes can be run: texts, numbers
    kept as their literal text, booleans and null. *)
Module Plain.

Inductive value : Type :=
| Text (s : string)
| Number (literal : string)
| Boolean (b : bool)
| Null.

Definition is_falsy (v : value) : bool :=
  match v with
  | Text s => (s =? "")%string
  | Number l => (l =? "0")%string || (l =? "NaN")%string
  | Boolean b => negb b
  | Null => true
  end.

Definition numeric (s : string) : bool :=
  negb (s =? "")%string
  && forallb (fun c => JsonText.is_number_char c || Ascii.eqb c ".")
             (list_ascii_of_string s).

Definition to_float (v : value) : value :=
  match v with
  | Number l => Number l
  | Text s => if numeric s then Number s else Number "NaN"
  | _ => Number "NaN"
  end.

Definition to_int (s : string) : option Z :=
  let (digits, _) := JsonText.span_number s in
  option_map Z.of_int (NilZero.int_of_string digits).

Definition show (id : option Z) : string :=
  match id with
  | Some n => JsonText.print_number n
  | None => "NaN"
  end.

Definition values : JsValues :=
  {| Value := value; falsy := is_falsy; parseFloat := to_float;
     parseInt := to_int; id_text := show;
     text := Text; number := Number; boolean := Boolean |}.

(** A new product to create. *)
Definition headphones : ProductBody.t (js := values) :=
  ProductBody.make (js := values)
    (Some (text "Headphones")) (Some (number "59.99")) None.

End Plain.

(* ================================================================= *)
(** * Properties *)

(** ** Splitting the Authorization header *)

Lemma split_nonempty sep s : Js.split sep s <> [].
Proof.
  destruct s as [|c s]; cbn; [discriminate|].
  destruct (Ascii.eqb c sep); [discriminate|].
  destruct (Js.split sep s); discriminate.
Qed.

Lemma split_without sep a : contains sep a = false -> Js.split sep a = [a].
Proof.
  induction a as [|c a IH]; cbn; [reflexivity|].
  intros H. apply orb_false_iff in H. destruct H as [Hc Ha].
  rewrite Hc, (IH Ha). reflexivity.
Qed.

Lemma split_at sep a b :
  contains sep a = false ->
  Js.split sep (a ++ String sep b) = a :: Js.split sep b.
Proof.
  induction a as [|c a IH]; cbn.
  - intros _. now rewrite Ascii.eqb_refl.
  - intros H. apply orb_false_iff in H. destruct H as [Hc Ha].
    rewrite Hc, (IH Ha). reflexivity.
Qed.

(** The header [scheme token] or [scheme token extra...]: the second piece is
    the token, whatever the scheme. *)
Lemma second_piece scheme token rest :
  contains " " scheme = false -> contains " " token = false ->
  rest = "" \/ (exists extra, rest = String " " extra) ->
  Js.index (Js.split " " (scheme ++ String " " (token ++ rest))) 1 = Some token.
Proof.
  intros Hs Ht Hr. rewrite (split_at _ _ _ Hs).
  destruct Hr as [-> | [extra ->]].
  - assert (E : token ++ "" = token).
    { clear. induction token; cbn; [reflexivity | now f_equal]. }
    rewrite E, (split_without _ _ Ht). reflexivity.
  - rewrite (split_at _ _ _ Ht). reflexivity.
Qed.

(** ** base64url and the token format *)

Lemma string_ind3 (P : string -> Prop) :
  P "" ->
  (forall a, P (String a "")) ->
  (forall a b, P (String a (String b ""))) ->
  (forall a b c rest, P rest -> P (String a (String b (String c rest)))) ->
  forall s, P s.
Proof.
  intros H0 H1 H2 H3 s.
  assert (H : P s /\ (forall a, P (String a s))
              /\ (forall a b, P (String a (String b s)))).
  { induction s as [|c s [IH0 [IH1 IH2]]]; auto. }
  apply H.
Qed.

Lemma append_empty (s : string) : s ++ "" = s.
Proof. induction s; cbn; [reflexivity | now f_equal]. Qed.

Lemma append_assoc (a b c : string) : (a ++ b) ++ c = a ++ (b ++ c).
Proof. induction a; cbn; [reflexivity | now f_equal]. Qed.

Lemma contains_append c a b :
  contains c (a ++ b) = contains c a || contains c b.
Proof.
  induction a as [|x a IH]; cbn; [reflexivity|].
  now rewrite IH, orb_assoc.
Qed.

Module Base64urlFacts.
Import Base64url.

Lemma bits_digit b5 b4 b3 b2 b1 b0 :
  bits (digit b5 b4 b3 b2 b1 b0) = Some (b5, b4, b3, b2, b1, b0).
Proof. destruct b5, b4, b3, b2, b1, b0; reflexivity. Qed.

(** No digit is a dot or a space. *)
Lemma digit_plain b5 b4 b3 b2 b1 b0 :
  Ascii.eqb (digit b5 b4 b3 b2 b1 b0) "." = false
  /\ Ascii.eqb (digit b5 b4 b3 b2 b1 b0) " " = false.
Proof. destruct b5, b4, b3, b2, b1, b0; split; reflexivity. Qed.

Lemma decode_encode s : decode (encode s) = Some s.
Proof.
  induction s as [| a | a b | a b c rest IH] using string_ind3.
  - reflexivity.
  - destruct a. cbn [encode decode]. now rewrite !bits_digit.
  - destruct a, b. cbn [encode decode]. now rewrite !bits_digit.
  - destruct a, b, c. cbn [encode decode]. now rewrite !bits_digit, IH.
Qed.

Lemma encode_plain s :
  contains "." (encode s) = false /\ contains " " (encode s) = false.
Proof.
  induction s as [| a | a b | a b c rest [IH1 IH2]] using string_ind3.
  - split; reflexivity.
  - destruct a. cbn [encode contains].
    split; rewrite ?(proj1 (digit_plain _ _ _ _ _ _)),
             ?(proj2 (digit_plain _ _ _ _ _ _)); reflexivity.
  - destruct a, b. cbn [encode contains].
    split; rewrite ?(proj1 (digit_plain _ _ _ _ _ _)),
             ?(proj2 (digit_plain _ _ _ _ _ _)); reflexivity.
  - destruct a, b, c. cbn [encode contains].
    split; rewrite ?(proj1 (digit_plain _ _ _ _ _ _)),
             ?(proj2 (digit_plain _ _ _ _ _ _)), ?IH1, ?IH2; reflexivity.
Qed.

End Base64urlFacts.

Lemma prop_set_prop k v o : prop k (set_prop k v o) = Some v.
Proof.
  induction o as [|[k' v'] o IH]; cbn.
  - now rewrite String.eqb_refl.
  - destruct (String.eqb_spec k' k) as [->|Hne]; cbn.
    + now rewrite String.eqb_refl.
    + apply String.eqb_neq in Hne. now rewrite Hne.
Qed.

Lemma prop_set_prop_other k k' v o :
  k <> k' -> prop k' (set_prop k v o) = prop k' o.
Proof.
  intros Hne. induction o as [|[k0 v0] o IH]; cbn.
  - apply String.eqb_neq in Hne. now rewrite Hne.
  - destruct (String.eqb_spec k0 k) as [->|Hk]; cbn.
    + apply String.eqb_neq in Hne. now rewrite Hne.
    + now rewrite IH.
Qed.

Section TokenFacts.

Variable serialize : Json -> string.
Variable deserialize : string -> option Json.
Variable sign : string -> string -> string.

#[local] Abbreviation issue := (TokenSpec.issue serialize sign).
#[local] Abbreviation verify := (TokenSpec.verify deserialize sign).
#[local] Abbreviation augment := TokenSpec.augment.

Lemma segments_split h p s :
  contains "." h = false -> contains "." p = false ->
  contains "." s = false ->
  Js.split "." (h ++ "." ++ p ++ "." ++ s) = [h; p; s].
Proof.
  intros Hh Hp Hs.
  change (h ++ "." ++ p ++ "." ++ s)
    with (h ++ String "." (p ++ String "." s)).
  now rewrite (split_at _ _ _ Hh), (split_at _ _ _ Hp), (split_without _ _ Hs).
Qed.

Lemma augment_exp claims ttl issued :
  prop "exp" (augment claims ttl issued) = Some (JNum (issued + ttl)).
Proof. apply prop_set_prop. Qed.

Lemma augment_iat claims ttl issued :
  prop "iat" (augment claims ttl issued) = Some (JNum issued).
Proof.
  unfold TokenSpec.augment.
  rewrite prop_set_prop_other by discriminate. apply prop_set_prop.
Qed.

Lemma augment_other claims ttl issued k :
  k <> "iat" -> k <> "exp" ->
  prop k (augment claims ttl issued) = prop k claims.
Proof.
  intros Hi He. unfold TokenSpec.augment.
  rewrite !prop_set_prop_other by congruence. reflexivity.
Qed.

Lemma issued_plain claims secret ttl issued :
  contains " " (issue claims secret ttl issued) = false.
Proof.
  unfold TokenSpec.issue, TokenSpec.segment, TokenSpec.signature.
  rewrite !contains_append.
  rewrite !(proj2 (Base64urlFacts.encode_plain _)). reflexivity.
Qed.

(** Verification of an issued token, at any time. *)
Lemma verify_issued claims secret ttl issued now :
  deserialize (serialize (JObj (augment claims ttl issued)))
  = Some (JObj (augment claims ttl issued)) ->
  verify (issue claims secret ttl issued) secret now
  = if issued + ttl <=? now then Rejected Expired
    else Verified (augment claims ttl issued).
Proof.
  intros Hround. unfold TokenSpec.verify, TokenSpec.issue.
  rewrite segments_split
    by (unfold TokenSpec.segment, TokenSpec.signature;
        apply Base64urlFacts.encode_plain).
  rewrite String.eqb_refl.
  unfold TokenSpec.decode_claims, TokenSpec.segment.
  rewrite Base64urlFacts.decode_encode, Hround, augment_exp.
  reflexivity.
Qed.

End TokenFacts.

(** ** JSON text read back *)

Module JsonTextFacts.
Import JsonText.

Lemma print_array l : print (JArr l) = "[" ++ print_elements l ++ "]".
Proof.
  reflexivity.
Qed.

Lemma print_object l : print (JObj l) = "{" ++ print_members l ++ "}".
Proof.
  reflexivity.
Qed.

Lemma read_string_quote s rest :
  read_string (quote_body s ++ String dquote rest) = Some (s, rest).
Proof.
  induction s as [|c s IH]; cbn [quote_body String.append read_string].
  - now rewrite Ascii.eqb_refl.
  - destruct (Ascii.eqb c dquote) eqn:Hq; cbn [orb].
    + cbn [String.append read_string]. 
      replace (Ascii.eqb "\" dquote) with false by reflexivity.
      rewrite Ascii.eqb_refl. now rewrite IH.
    + destruct (Ascii.eqb c "\") eqn:Hb.
      * cbn [String.append read_string].
        replace (Ascii.eqb "\" dquote) with false by reflexivity.
        rewrite Ascii.eqb_refl. now rewrite IH.
      * cbn [String.append read_string]. now rewrite Hq, Hb, IH.
Qed.

Lemma uint_digits d : forall rest,
  delimited rest ->
  span_number (NilEmpty.string_of_uint d ++ rest)
  = (NilEmpty.string_of_uint d, rest).
Proof.
  induction d; intros rest Hrest;
    cbn [NilEmpty.string_of_uint String.append span_number];
    try (replace (is_number_char _) with true by reflexivity;
         now rewrite IHd).
  destruct rest as [|c rest]; [reflexivity|].
  cbn [span_number]. cbn in Hrest. now rewrite Hrest.
Qed.

Lemma number_chars n rest :
  delimited rest ->
  span_number (print_number n ++ rest) = (print_number n, rest).
Proof.
  intros Hrest. unfold print_number.
  assert (Hu : forall d, span_number (NilZero.string_of_uint d ++ rest)
                         = (NilZero.string_of_uint d, rest)).
  { intros d. destruct d; try apply (uint_digits _ _ Hrest).
    cbn. destruct rest as [|c rest]; [reflexivity|].
    cbn in Hrest |- *. now rewrite Hrest. }
  destruct (Z.to_int n) as [d|d]; cbn [NilZero.string_of_int].
  - apply Hu.
  - cbn [String.append span_number].
    replace (is_number_char "-") with true by reflexivity. now rewrite Hu.
Qed.

Lemma read_print_number n rest :
  delimited rest ->
  read_number (print_number n ++ rest) = Some (JNum n, rest).
Proof.
  intros Hrest. unfold read_number. rewrite (number_chars n rest Hrest).
  unfold print_number. rewrite NilZero.isi.
  - now rewrite DecimalZ.of_to.
  - destruct n; cbn; try discriminate.
    intros [= H]. now apply Unsigned.to_uint_nonnil in H.
  - destruct n; cbn; try discriminate.
    intros [= H]. now apply Unsigned.to_uint_nonnil in H.
Qed.

Lemma size_array l : size (JArr l) = S (sizes l).
Proof. reflexivity. Qed.

Lemma size_object l : size (JObj l) = S (member_sizes l).
Proof. reflexivity. Qed.

Lemma size_positive j : (1 <= size j)%nat.
Proof. destruct j; cbn [size]; lia. Qed.

Lemma print_number_head n :
  exists c s, print_number n = String c s /\ is_number_char c = true.
Proof.
  unfold print_number. destruct (Z.to_int n) as [d|d].
  - destruct d; do 2 eexists; split; reflexivity.
  - do 2 eexists; split; reflexivity.
Qed.

Lemma print_head j :
  exists c s, print j = String c s /\ starts_value c = true.
Proof.
  destruct j as [|[|]|n|s|l|l];
    try (do 2 eexists; split; reflexivity).
  destruct (print_number_head n) as [c [s [E H]]].
  exists c, s. split; [exact E|]. unfold starts_value. now rewrite H.
Qed.

Lemma read_value_number fuel c s :
  is_number_char c = true ->
  read_value (S fuel) (String c s) = read_number (String c s).
Proof.
  destruct c as [[] [] [] [] [] [] [] []]; intros H;
    try discriminate H; reflexivity.
Qed.

Lemma read_value_array fuel c s :
  starts_value c = true ->
  read_value (S fuel) (String "[" (String c s))
  = match read_elements fuel (String c s) with
    | Some (l, r) => Some (JArr l, r)
    | None => None
    end.
Proof.
  destruct c as [[] [] [] [] [] [] [] []]; intros H;
    try discriminate H; reflexivity.
Qed.

Lemma append_cons c a b : String c a ++ b = String c (a ++ b).
Proof. reflexivity. Qed.

Lemma read_print :
  forall fuel,
    (forall j rest, (size j <= fuel)%nat -> delimited rest ->
                    read_value fuel (print j ++ rest) = Some (j, rest))
    /\ (forall l rest, l <> [] -> (sizes l <= fuel)%nat ->
                       read_elements fuel (print_elements l ++ String "]" rest)
                       = Some (l, rest))
    /\ (forall l rest, l <> [] -> (member_sizes l <= fuel)%nat ->
                       read_members fuel (print_members l ++ String "}" rest)
                       = Some (l, rest)).
Proof.
  induction fuel as [|fuel [IHv [IHe IHm]]].
  - repeat split.
    + intros j rest H. pose proof (size_positive j). lia.
    + intros [|x l] rest Hl H; [contradiction | cbn in H; lia].
    + intros [|[k v] l] rest Hl H; [contradiction | cbn in H; lia].
  - repeat split.
    + intros j rest Hsize Hrest.
      destruct j as [|[|]|n|s|l|l]; try reflexivity.
      * change (print (JNum n)) with (print_number n).
        destruct (print_number_head n) as [c [s [E H]]].
        rewrite E, append_cons, (read_value_number _ _ _ H), <- append_cons, <- E.
        now apply read_print_number.
      * unfold print, quote. rewrite append_cons, append_assoc, append_cons.
        cbn [String.append].
        change (read_value (S fuel) (String dquote ?x))
          with (match read_string x with
                | Some (t, r) => Some (JStr t, r)
                | None => None
                end).
        now rewrite read_string_quote.
      * rewrite print_array. destruct l as [|x l]; [reflexivity|].
        rewrite size_array in Hsize.
        change ("[" ++ print_elements (x :: l) ++ "]")
          with (String "[" (print_elements (x :: l) ++ "]")).
        rewrite append_cons, append_assoc.
        change ("]" ++ rest) with (String "]" rest).
        assert (Hh : exists c s, print_elements (x :: l) = String c s
                                 /\ starts_value c = true).
        { destruct (print_head x) as [c [s [E H]]].
          destruct l; cbn [print_elements]; rewrite E.
          - exists c, s. auto.
          - rewrite append_cons. eexists c, _. auto. }
        destruct Hh as [c [s [E H]]].
        rewrite E, append_cons, (read_value_array _ _ _ H), <- append_cons, <- E.
        rewrite IHe by (try discriminate; lia). reflexivity.
      * rewrite print_object. destruct l as [|[k v] l]; [reflexivity|].
        rewrite size_object in Hsize.
        change ("{" ++ print_members ((k, v) :: l) ++ "}")
          with (String "{" (print_members ((k, v) :: l) ++ "}")).
        rewrite append_cons, append_assoc.
        change ("}" ++ rest) with (String "}" rest).
        assert (Hh : exists s, print_members ((k, v) :: l) = String dquote s).
        { destruct l as [|[k' v'] l]; cbn [print_members]; unfold quote;
            rewrite append_cons; eexists; reflexivity. }
        destruct Hh as [s E].
        rewrite E, append_cons.
        change (read_value (S fuel) (String "{" (String dquote ?x)))
          with (match read_members fuel (String dquote x) with
                | Some (l, r) => Some (JObj l, r)
                | None => None
                end).
        rewrite <- append_cons, <- E.
        rewrite IHm by (try discriminate; lia). reflexivity.
    + intros [|x l] rest Hl Hsize; [contradiction|]. cbn [sizes] in Hsize.
      cbn [read_elements]. destruct l as [|y l].
      * cbn [print_elements]. rewrite IHv by (cbn; auto; lia). reflexivity.
      * change (print_elements (x :: y :: l))
          with (print x ++ "," ++ print_elements (y :: l)).
        rewrite append_assoc.
        change (("," ++ print_elements (y :: l)) ++ String "]" rest)
          with (String "," (print_elements (y :: l) ++ String "]" rest)).
        rewrite IHv by (cbn; auto; lia).
        rewrite IHe by (try discriminate; lia). reflexivity.
    + intros [|[k v] l] rest Hl Hsize; [contradiction|].
      cbn [member_sizes] in Hsize.
      assert (Hkey : forall tail,
                 read_members (S fuel) (quote k ++ ":" ++ tail)
                 = match read_value fuel tail with
                   | Some (v, String "," r') =>
                       match read_members fuel r' with
                       | Some (l, r'') => Some ((k, v) :: l, r'')
                       | None => None
                       end
                   | Some (v, String "}" r') => Some ([(k, v)], r')
                   | _ => None
                   end).
      { intros tail. unfold quote. rewrite append_cons, append_assoc.
        cbn [String.append read_members]. rewrite Ascii.eqb_refl.
        now rewrite read_string_quote. }
      destruct l as [|y l].
      * cbn [print_members]. rewrite !append_assoc, Hkey.
        rewrite IHv by (cbn; auto; lia). reflexivity.
      * change (print_members ((k, v) :: y :: l))
          with (quote k ++ ":" ++ print v ++ "," ++ print_members (y :: l)).
        rewrite !append_assoc, Hkey.
        change ("," ++ print_members (y :: l) ++ String "}" rest)
          with (String "," (print_members (y :: l) ++ String "}" rest)).
        rewrite IHv by (cbn; auto; lia).
        rewrite IHm by (try discriminate; lia). reflexivity.
Qed.

Lemma length_append a b :
  String.length (a ++ b) = (String.length a + String.length b)%nat.
Proof. induction a; cbn; [reflexivity | now f_equal]. Qed.

Lemma size_length j : (size j <= String.length (print j))%nat.
Proof.
  induction j as [| b | n | s | l IH | l IH] using Json_nested_ind.
  - cbn. lia.
  - destruct b; cbn; lia.
  - change (print (JNum n)) with (print_number n).
    destruct (print_number_head n) as [c [s [-> _]]]. cbn. lia.
  - cbn. lia.
  - rewrite print_array, size_array.
    change ("[" ++ print_elements l ++ "]")
      with (String "[" (print_elements l ++ "]")).
    cbn [String.length]. rewrite length_append. cbn [String.length].
    assert (H : (sizes l <= String.length (print_elements l) + 1)%nat).
    { induction IH as [|x l Hx Hl IHl]; [cbn; lia|].
      cbn [sizes]. destruct l as [|y l].
      - cbn [print_elements sizes]. lia.
      - change (print_elements (x :: y :: l))
          with (print x ++ "," ++ print_elements (y :: l)).
        rewrite !length_append. cbn [String.length]. lia. }
    lia.
  - rewrite print_object, size_object.
    change ("{" ++ print_members l ++ "}")
      with (String "{" (print_members l ++ "}")).
    cbn [String.length]. rewrite length_append. cbn [String.length].
    assert (H : (member_sizes l <= String.length (print_members l) + 1)%nat).
    { induction IH as [|[k v] l Hx Hl IHl]; [cbn; lia|].
      cbn [member_sizes]. cbn [snd] in Hx. destruct l as [|y l].
      - cbn [print_members member_sizes]. rewrite !length_append. lia.
      - change (print_members ((k, v) :: y :: l))
          with (quote k ++ ":" ++ print v ++ "," ++ print_members (y :: l)).
        rewrite !length_append. cbn [String.length]. lia. }
    lia.
Qed.

Lemma read_print_roundtrip j : read (print j) = Some j.
Proof.
  unfold read.
  rewrite <- (append_empty (print j)) at 2.
  rewrite (proj1 (read_print _)); [reflexivity | | exact I].
  pose proof (size_length j). lia.
Qed.

End JsonTextFacts.

#[local] Arguments Sql.insert_user : simpl never.
#[local] Arguments Sql.get_by_username_or_email : simpl never.
#[local] Arguments Sql.get_by_username : simpl never.
#[local] Arguments Sql.get_public_by_id : simpl never.
#[local] Arguments Sql.all_public : simpl never.
#[local] Arguments Sql.next_rowid : simpl never.
#[local] Arguments iat_milliseconds : simpl never.
#[local] Arguments Js.truthy : simpl never.
#[local] Arguments Js.split : simpl never.
#[local] Arguments Js.length : simpl never.
#[local] Arguments String.append : simpl never.

(** Unfold one request down to the library and SQL calls. *)
Ltac step :=
  cbv beta iota zeta delta
    [Register Login Profile ListAccounts AuthGuard serve
     register_handler login_handler profile_handler users_handler
     verifyToken tokenIssuedAt bind_userId try_catch bind query execute emit
     respond ret throw hash_password compare_password sign_token];
  cbn [db trace fst snd].

(** Split on the next test or call the request reaches. *)
Ltac branch1 :=
  match goal with
  | |- context [match Js.truthy ?v with _ => _ end] =>
      destruct (Js.truthy v) eqn:?
  | |- context [if ?a <? ?b then _ else _] => destruct (a <? b) eqn:?
  | |- context [match Sql.get_by_username_or_email ?u ?e ?d with _ => _ end] =>
      destruct (Sql.get_by_username_or_email u e d) eqn:?
  | |- context [match Sql.get_by_username ?u ?d with _ => _ end] =>
      destruct (Sql.get_by_username u d) eqn:?
  | |- context [match Sql.get_public_by_id ?u ?d with _ => _ end] =>
      destruct (Sql.get_public_by_id u d) eqn:?
  | |- context [match Sql.insert_user ?u ?e ?h ?n ?d with _ => _ end] =>
      destruct (Sql.insert_user u e h n d) as [?|[? ?]] eqn:?
  | |- context [negb (bcrypt_compare ?p ?h)] =>
      destruct (bcrypt_compare p h) eqn:?
  | |- context [match jwt_verify ?t ?s ?n with _ => _ end] =>
      destruct (jwt_verify t s n) eqn:?
  | |- context [match toISOString ?n with _ => _ end] =>
      destruct (toISOString n) eqn:?
  | |- context [match iat_milliseconds ?o with _ => _ end] =>
      destruct (iat_milliseconds o) eqn:?
  | |- context [match prop "userId" ?o with _ => _ end] =>
      destruct (prop "userId" o) as [[| | | | |]|] eqn:?
  | |- context [match bind_id ?v with _ => _ end] =>
      destruct (bind_id v) eqn:?
  end.

Ltac branch := repeat (branch1; step; cbn [negb]).

(** ** The presence checks *)

Lemma truthy_nonempty (s : string) : s <> "" -> Js.truthy (Some s) = Some s.
Proof.
  intros Hs. unfold Js.truthy, Js.not.
  destruct (String.eqb_spec s ""); [contradiction | reflexivity].
Qed.

Lemma truthy_given v s : given v s -> Js.truthy v = Some s.
Proof. intros [-> Hs]. now apply truthy_nonempty. Qed.

Lemma truthy_Some v s : Js.truthy v = Some s -> given v s.
Proof.
  unfold Js.truthy, Js.not, given. destruct v as [t|]; [|discriminate].
  destruct (String.eqb_spec t ""); [discriminate|].
  intros [= ->]. auto.
Qed.

Lemma truthy_None v : Js.truthy v = None <-> v = None \/ v = Some "".
Proof.
  unfold Js.truthy, Js.not. destruct v as [t|].
  - destruct (String.eqb_spec t ""); subst; split; intros H; auto; try discriminate.
    destruct H as [H|H]; [discriminate | congruence].
  - tauto.
Qed.

Lemma long_nonempty p : 6 <= Js.length p -> p <> "".
Proof. intros H ->. unfold Js.length in H. simpl in H. lia. Qed.

(** ** The store *)

Lemma conflict_unused u e d :
  Sql.get_by_username_or_email u e d = None <-> unused u e d.
Proof.
  unfold Sql.get_by_username_or_email, unused. split.
  - intros Hn r Hin. assert (H := find_none _ _ Hn r Hin). simpl in H.
    apply orb_false_iff in H. destruct H as [Hu He].
    apply String.eqb_neq in Hu, He. auto.
  - intros Hall. destruct (find _ _) as [r|] eqn:Hf; [|reflexivity].
    apply find_some in Hf. destruct Hf as [Hin Hr].
    destruct (Hall r Hin) as [Hu He].
    apply String.eqb_neq in Hu, He. rewrite Hu, He in Hr. discriminate.
Qed.

Lemma conflict_found u e d :
  (exists r, In r (users d) /\ (User.username r = u \/ User.email r = e)) ->
  exists r, Sql.get_by_username_or_email u e d = Some r.
Proof.
  intros [r [Hin Hr]].
  destruct (Sql.get_by_username_or_email u e d) as [r'|] eqn:Hf; [eauto|].
  apply conflict_unused in Hf. destruct (Hf r Hin). tauto.
Qed.

Lemma insert_after_check u e h now d :
  Sql.get_by_username_or_email u e d = None ->
  Sql.insert_user u e h now d =
    inr (Sql.next_rowid d,
         {| users := users d ++ [User.make (Sql.next_rowid d) u e h now];
            seq := Sql.next_rowid d |}).
Proof.
  intros Hn. apply conflict_unused in Hn. unfold Sql.insert_user.
  assert (Hu : existsb (fun r => (User.username r =? u)%string) (users d) = false).
  { apply not_true_is_false. intros Hx. apply existsb_exists in Hx.
    destruct Hx as [r [Hin Hr]]. apply String.eqb_eq in Hr.
    destruct (Hn r Hin). contradiction. }
  assert (He : existsb (fun r => (User.email r =? e)%string) (users d) = false).
  { apply not_true_is_false. intros Hx. apply existsb_exists in Hx.
    destruct Hx as [r [Hin Hr]]. apply String.eqb_eq in Hr.
    destruct (Hn r Hin). contradiction. }
  rewrite Hu, He. reflexivity.
Qed.

Lemma get_by_username_app u d d' r more :
  users d' = (users d ++ more)%list ->
  Sql.get_by_username u d = Some r -> Sql.get_by_username u d' = Some r.
Proof.
  unfold Sql.get_by_username. intros ->. induction (users d) as [|x l IH]; simpl.
  - discriminate.
  - destruct (User.username x =? u)%string; auto.
Qed.

Lemma get_by_username_new u e h now rowid d :
  unused u e d ->
  Sql.get_by_username u
    {| users := users d ++ [User.make rowid u e h now]; seq := rowid |}
  = Some (User.make rowid u e h now).
Proof.
  unfold Sql.get_by_username, unused. simpl.
  induction (users d) as [|x l IH]; simpl; intros Hall.
  - rewrite String.eqb_refl. reflexivity.
  - destruct (String.eqb_spec (User.username x) u) as [Heq|_].
    + destruct (Hall x (or_introl eq_refl)). contradiction.
    + apply IH. intros r Hin. apply Hall. now right.
Qed.

(** ** The handlers, case by case *)

Section Handlers.

Context {bcrypt : Bcrypt} {jwt : JsonWebToken} {date : JsDate}
        {coercion : Coercion}.

Lemma Register_missing env body w :
  Js.truthy (RegisterBody.username body) = None \/
  Js.truthy (RegisterBody.email body) = None \/
  Js.truthy (RegisterBody.password body) = None ->
  Register env body w = (RegisterFieldsRequired, w).
Proof.
  intros H. step.
  destruct (Js.truthy (RegisterBody.username body)),
    (Js.truthy (RegisterBody.email body)),
    (Js.truthy (RegisterBody.password body)); try reflexivity.
  destruct H as [H|[H|H]]; discriminate.
Qed.

Lemma Register_short env body u e p w :
  Js.truthy (RegisterBody.username body) = Some u ->
  Js.truthy (RegisterBody.email body) = Some e ->
  Js.truthy (RegisterBody.password body) = Some p ->
  Js.length p < 6 ->
  Register env body w = (PasswordTooShort, w).
Proof.
  intros Hu He Hp Hl. step. rewrite Hu, He, Hp.
  apply Z.ltb_lt in Hl. rewrite Hl. reflexivity.
Qed.

Lemma Register_duplicate env body u e p w r :
  Js.truthy (RegisterBody.username body) = Some u ->
  Js.truthy (RegisterBody.email body) = Some e ->
  Js.truthy (RegisterBody.password body) = Some p ->
  6 <= Js.length p ->
  Sql.get_by_username_or_email u e (db w) = Some r ->
  Register env body w =
    (DuplicateAccount,
     {| db := db w;
        trace := trace w ++
          [SqlStatement "SELECT * FROM users WHERE username = ? OR email = ?"] |}).
Proof.
  intros Hu He Hp Hl Hr. step. rewrite Hu, He, Hp.
  apply Z.ltb_ge in Hl. rewrite Hl, Hr. reflexivity.
Qed.

Lemma Register_created env body u e p w :
  Js.truthy (RegisterBody.username body) = Some u ->
  Js.truthy (RegisterBody.email body) = Some e ->
  Js.truthy (RegisterBody.password body) = Some p ->
  6 <= Js.length p ->
  Sql.get_by_username_or_email u e (db w) = None ->
  Register env body w =
    (Created (Sql.next_rowid (db w)) u e, registered env u e p w).
Proof.
  intros Hu He Hp Hl Hr. step. rewrite Hu, He, Hp.
  apply Z.ltb_ge in Hl. rewrite Hl. step. rewrite Hr.
  rewrite (insert_after_check _ _ _ _ _ Hr). step.
  unfold registered, Created. repeat rewrite <- app_assoc. reflexivity.
Qed.

Lemma Login_missing env body w :
  Js.truthy (LoginBody.username body) = None \/
  Js.truthy (LoginBody.password body) = None ->
  Login env body w = (LoginFieldsRequired, w).
Proof.
  intros H. step.
  destruct (Js.truthy (LoginBody.username body)),
    (Js.truthy (LoginBody.password body)); try reflexivity.
  destruct H as [H|H]; discriminate.
Qed.

Lemma Login_unknown env body u p w :
  Js.truthy (LoginBody.username body) = Some u ->
  Js.truthy (LoginBody.password body) = Some p ->
  Sql.get_by_username u (db w) = None ->
  fst (Login env body w) = InvalidCredentials.
Proof. intros Hu Hp Hr. step. rewrite Hu, Hp, Hr. reflexivity. Qed.

Lemma Login_wrong_password env body u p w r :
  Js.truthy (LoginBody.username body) = Some u ->
  Js.truthy (LoginBody.password body) = Some p ->
  Sql.get_by_username u (db w) = Some r ->
  bcrypt_compare p (User.password_hash r) = false ->
  fst (Login env body w) = InvalidCredentials.
Proof. intros Hu Hp Hr Hc. step. rewrite Hu, Hp, Hr, Hc. reflexivity. Qed.

Lemma Login_accepted env body u p w r :
  Js.truthy (LoginBody.username body) = Some u ->
  Js.truthy (LoginBody.password body) = Some p ->
  Sql.get_by_username u (db w) = Some r ->
  bcrypt_compare p (User.password_hash r) = true ->
  fst (Login env body w) = LoggedIn env r.
Proof. intros Hu Hp Hr Hc. step. rewrite Hu, Hp, Hr, Hc. reflexivity. Qed.

(** Only registration writes, and it only appends. *)
Lemma Register_appends env body w :
  exists more,
    users (db (snd (Register env body w))) = (users (db w) ++ more)%list.
Proof.
  step. branch; cbn [db trace fst snd users];
    try (exists []; rewrite app_nil_r; reflexivity).
  match goal with H : Sql.insert_user _ _ _ _ _ = inr _ |- _ =>
    unfold Sql.insert_user in H;
    repeat match type of H with
      | (if ?c then _ else _) = _ => destruct c; [discriminate|]
      end;
    injection H as <- <-
  end.
  cbn [users]. eauto.
Qed.

Lemma Login_reads env body w : db (snd (Login env body w)) = db w.
Proof. step. branch; reflexivity. Qed.

Lemma Profile_reads env authorization w :
  db (snd (Profile env authorization w)) = db w.
Proof. step. branch; reflexivity. Qed.

Lemma ListAccounts_reads env authorization w :
  db (snd (ListAccounts env authorization w)) = db w.
Proof. step. branch; reflexivity. Qed.

Lemma handle_appends q w :
  exists more, users (db (snd (handle q w))) = (users (db w) ++ more)%list.
Proof.
  destruct q; cbn [handle].
  - apply Register_appends.
  - exists []. now rewrite Login_reads, app_nil_r.
  - exists []. now rewrite Profile_reads, app_nil_r.
  - exists []. now rewrite ListAccounts_reads, app_nil_r.
Qed.

Lemma run_appends qs : forall w,
  exists more, users (db (run qs w)) = (users (db w) ++ more)%list.
Proof.
  induction qs as [|q qs IH]; intros w; cbn [run].
  - exists []. now rewrite app_nil_r.
  - destruct (IH (snd (handle q w))) as [m2 H2].
    destruct (handle_appends q w) as [m1 H1].
    exists (m1 ++ m2)%list. now rewrite H2, H1, app_assoc.
Qed.

(** The guard, by the shape of the header. *)
Lemma AuthGuard_missing env authorization w :
  Js.truthy authorization = None ->
  AuthGuard env authorization w = (Sent MissingToken, w).
Proof. intros H. step. rewrite H. reflexivity. Qed.

Lemma AuthGuard_malformed env authorization h w :
  Js.truthy authorization = Some h ->
  Js.truthy (Js.index (Js.split " " h) 1) = None ->
  AuthGuard env authorization w = (Sent MalformedHeader, w).
Proof. intros H1 H2. step. rewrite H1, H2. reflexivity. Qed.

Lemma AuthGuard_rejected env authorization h token e w :
  Js.truthy authorization = Some h ->
  Js.truthy (Js.index (Js.split " " h) 1) = Some token ->
  jwt_verify token JWT_SECRET (clock env) = Rejected e ->
  fst (AuthGuard env authorization w) = Sent InvalidToken.
Proof. intros H1 H2 H3. step. rewrite H1, H2, H3. reflexivity. Qed.

Lemma AuthGuard_verified env authorization h token decoded w :
  Js.truthy authorization = Some h ->
  Js.truthy (Js.index (Js.split " " h) 1) = Some token ->
  jwt_verify token JWT_SECRET (clock env) = Verified decoded ->
  fst (AuthGuard env authorization w) = Next decoded.
Proof. intros H1 H2 H3. step. rewrite H1, H2, H3. reflexivity. Qed.

Lemma AuthGuard_sent env authorization w r :
  fst (AuthGuard env authorization w) = Sent r ->
  r = MissingToken \/ r = MalformedHeader \/ r = InvalidToken.
Proof.
  step. branch; cbn [fst]; intros [= <-]; auto.
Qed.

Lemma AuthGuard_next env authorization w decoded :
  fst (AuthGuard env authorization w) = Next decoded ->
  exists h token,
    given authorization h /\
    Js.index (Js.split " " h) 1 = Some token /\ token <> "" /\
    jwt_verify token JWT_SECRET (clock env) = Verified decoded.
Proof.
  step.
  destruct (Js.truthy authorization) as [h|] eqn:Hh; [|discriminate].
  destruct (Js.truthy (Js.index (Js.split " " h) 1)) as [token|] eqn:Ht;
    [|discriminate].
  destruct (jwt_verify token JWT_SECRET (clock env)) eqn:Hv;
    cbn [fst]; [|discriminate].
  intros [= <-]. apply truthy_Some in Hh, Ht. destruct Ht as [Ht Hne].
  exists h, token. auto.
Qed.

End Handlers.

(* ================================================================= *)
(** * The claims of the specification *)

(** ** Registration failures *)

(** C9: every Register call answered with a 400 response (validation failure
    or duplicate) leaves the credential store as it was: the set of accounts
    after the call equals the set before it. *)
Theorem register_failure_keeps_store {bcrypt : Bcrypt} env body w :
  status (fst (Register env body w)) = 400 ->
  db (snd (Register env body w)) = db w.
Proof.
  step. branch; cbn [fst snd status db]; intros H;
    try reflexivity; discriminate H.
Qed.

Lemma register_failure_keeps_store_witness :
  db (snd (Register (bcrypt := Reference.bcrypt)
             Scenario.later Scenario.alice Scenario.with_alice))
  = db Scenario.with_alice.
Proof.
  apply (register_failure_keeps_store (bcrypt := Reference.bcrypt)).
  vm_compute. reflexivity.
Defined.

(** C10: a required field that is present but the empty string is treated as
    an absent one.  Register and Login then give the very answer they give
    when the field is missing, the 400 validation response, and the world is
    untouched: in particular a login with an empty password returns before
    any statement is sent to the database and before bcrypt.compare is
    called (no event is added to the trace). *)
Theorem empty_field_is_missing {bcrypt : Bcrypt} {jwt : JsonWebToken} env w :
  (forall e p,
      Register env (RegisterBody.make (Some "") e p) w
      = Register env (RegisterBody.make None e p) w
      /\ Register env (RegisterBody.make (Some "") e p) w
         = (RegisterFieldsRequired, w))
  /\ (forall u p,
      Register env (RegisterBody.make u (Some "") p) w
      = Register env (RegisterBody.make u None p) w
      /\ Register env (RegisterBody.make u (Some "") p) w
         = (RegisterFieldsRequired, w))
  /\ (forall u e,
      Register env (RegisterBody.make u e (Some "")) w
      = Register env (RegisterBody.make u e None) w
      /\ Register env (RegisterBody.make u e (Some "")) w
         = (RegisterFieldsRequired, w))
  /\ (forall p,
      Login env (LoginBody.make (Some "") p) w
      = Login env (LoginBody.make None p) w
      /\ Login env (LoginBody.make (Some "") p) w = (LoginFieldsRequired, w))
  /\ (forall u,
      Login env (LoginBody.make u (Some "")) w
      = Login env (LoginBody.make u None) w
      /\ Login env (LoginBody.make u (Some "")) w = (LoginFieldsRequired, w)).
Proof.
  repeat split; intros;
    repeat first
      [ rewrite Register_missing by (cbn; auto)
      | rewrite Login_missing by (cbn; auto) ];
    reflexivity.
Qed.

(** The order of the two checks, on the scenario: the handler validates
    first and looks for an existing account after, so a call that fails the
    validation is a ValidationError also when its username is taken. *)
Example validation_comes_first :
  let body :=
    RegisterBody.make (Some "alice") (Some "other@example.com") (Some "abc") in
  In Scenario.alice_row (users (db Scenario.with_alice))
  /\ User.username Scenario.alice_row = "alice"
  /\ fst (Register (bcrypt := Reference.bcrypt)
            Scenario.later body Scenario.with_alice) = PasswordTooShort.
Proof.
  vm_compute. repeat split; auto.
Qed.

(** C7: the two failure cases of Register, in the order the handler checks
    them (validate, then look for an existing account).  Every Register call
    with a missing (or empty) username, email or password, or with a
    password shorter than 6, is answered 400 ValidationError and changes
    nothing; every Register call that passes this validation and whose
    username or email equals that of an existing account is answered 400
    DuplicateAccount and creates no account; in particular, after a
    successful registration, a second Register call with the same username
    fails: it is answered 400, with DuplicateAccount when it passes the
    validation.  Whether it passes the validation or not, a Register call
    whose username or email equals that of an existing account is answered
    400 and creates no account. *)
Theorem register_rejections {bcrypt : Bcrypt} env body w :
  ((missing (RegisterBody.username body)
    \/ missing (RegisterBody.email body)
    \/ missing (RegisterBody.password body)
    \/ (exists p, RegisterBody.password body = Some p /\ Js.length p < 6)) ->
   ValidationError (fst (Register env body w))
   /\ snd (Register env body w) = w)
  /\ (forall u e p,
         given (RegisterBody.username body) u ->
         given (RegisterBody.email body) e ->
         given (RegisterBody.password body) p ->
         6 <= Js.length p ->
         (exists r, In r (users (db w))
                    /\ (User.username r = u \/ User.email r = e)) ->
         fst (Register env body w) = DuplicateAccount
         /\ db (snd (Register env body w)) = db w)
  /\ (forall u e p,
         given (RegisterBody.username body) u ->
         given (RegisterBody.email body) e ->
         given (RegisterBody.password body) p ->
         6 <= Js.length p ->
         unused u e (db w) ->
         status (fst (Register env body w)) = 201
         /\ forall env' again,
             RegisterBody.username again = Some u ->
             let second := fst (Register env' again (snd (Register env body w))) in
             status second = 400
             /\ ((exists e' p',
                     given (RegisterBody.email again) e'
                     /\ given (RegisterBody.password again) p'
                     /\ 6 <= Js.length p') ->
                 second = DuplicateAccount))
  /\ ((exists r, In r (users (db w))
                 /\ (RegisterBody.username body = Some (User.username r)
                     \/ RegisterBody.email body = Some (User.email r))) ->
      status (fst (Register env body w)) = 400
      /\ db (snd (Register env body w)) = db w).
Proof.
  split; [|split; [|split]].
  - intros H. unfold missing in H. rewrite <- !truthy_None in H.
    destruct (Js.truthy (RegisterBody.username body)) as [u|] eqn:Hu;
      [|rewrite Register_missing by auto; repeat split].
    destruct (Js.truthy (RegisterBody.email body)) as [e|] eqn:He;
      [|rewrite Register_missing by auto; repeat split].
    destruct (Js.truthy (RegisterBody.password body)) as [p|] eqn:Hp;
      [|rewrite Register_missing by auto; repeat split].
    destruct H as [H|[H|[H|[p' [Hp' Hl]]]]]; try discriminate.
    assert (p = p') as ->.
    { apply truthy_Some in Hp. destruct Hp as [Hp _]. congruence. }
    rewrite (Register_short env body u e p' w) by assumption.
    repeat split.
  - intros u e p Hu He Hp Hl Hex.
    apply truthy_given in Hu, He, Hp.
    destruct (conflict_found u e (db w) Hex) as [r Hr].
    rewrite (Register_duplicate env body u e p w r) by assumption.
    split; reflexivity.
  - intros u e p Hu He Hp Hl Hfree.
    assert (Hne : u <> "") by apply Hu.
    apply truthy_given in Hu, He, Hp. apply conflict_unused in Hfree.
    rewrite (Register_created env body u e p w) by assumption.
    cbn [fst snd]. split; [reflexivity|].
    intros env' again Hu2.
    assert (Ht : Js.truthy (RegisterBody.username again) = Some u).
    { rewrite Hu2. now apply truthy_nonempty. }
    assert (Hdup : forall e' p',
               Js.truthy (RegisterBody.email again) = Some e' ->
               Js.truthy (RegisterBody.password again) = Some p' ->
               6 <= Js.length p' ->
               fst (Register env' again (registered env u e p w))
               = DuplicateAccount).
    { intros e' p' He' Hp' Hl'.
      destruct (conflict_found u e' (db (registered env u e p w))) as [r Hr].
      { exists (User.make (Sql.next_rowid (db w)) u e
                            (bcrypt_hash p 10 (salt env)) (current_timestamp env)).
        split; [|left; reflexivity].
        cbn [registered db users]. apply in_or_app. right. left. reflexivity. }
      rewrite (Register_duplicate env' again u e' p' _ r) by assumption.
      reflexivity. }
    split.
    + destruct (Js.truthy (RegisterBody.email again)) as [e'|] eqn:He';
        [|rewrite Register_missing by auto; reflexivity].
      destruct (Js.truthy (RegisterBody.password again)) as [p'|] eqn:Hp';
        [|rewrite Register_missing by auto; reflexivity].
      destruct (Z.ltb_spec (Js.length p') 6) as [Hs|Hs].
      * rewrite (Register_short env' again u e' p') by assumption. reflexivity.
      * rewrite (Hdup e' p') by auto. reflexivity.
    + intros [e' [p' [He' [Hp' Hl']]]]. apply truthy_given in He', Hp'.
      now apply (Hdup e' p').
  - intros [r [Hin Hr]].
    destruct (Js.truthy (RegisterBody.username body)) as [u|] eqn:Hu;
      [|rewrite Register_missing by auto; split; reflexivity].
    destruct (Js.truthy (RegisterBody.email body)) as [e|] eqn:He;
      [|rewrite Register_missing by auto; split; reflexivity].
    destruct (Js.truthy (RegisterBody.password body)) as [p|] eqn:Hp;
      [|rewrite Register_missing by auto; split; reflexivity].
    destruct (Z.ltb_spec (Js.length p) 6) as [Hl|Hl];
      [rewrite (Register_short env body u e p w) by assumption;
       split; reflexivity|].
    destruct (conflict_found u e (db w)) as [r' Hr'].
    { exists r. split; [assumption|].
      apply truthy_Some in Hu, He. destruct Hu as [Hu _], He as [He _].
      destruct Hr as [Hr|Hr]; [left | right]; congruence. }
    rewrite (Register_duplicate env body u e p w r') by assumption.
    split; reflexivity.
Qed.

Lemma register_rejections_witness :
  (ValidationError
     (fst (Register (bcrypt := Reference.bcrypt) Scenario.later
             (RegisterBody.make (Some "bob") None (Some "secret2"))
             Scenario.with_alice))
   /\ fst (Register (bcrypt := Reference.bcrypt) Scenario.later Scenario.alice
             Scenario.with_alice) = DuplicateAccount)
  /\ status (fst (Register (bcrypt := Reference.bcrypt) Scenario.day1
                    Scenario.alice Scenario.start)) = 201.
Proof.
  split; [split|].
  - apply (proj1 (register_rejections (bcrypt := Reference.bcrypt)
                    Scenario.later _ Scenario.with_alice)).
    right; left. left. reflexivity.
  - apply (proj1 (proj2 (register_rejections (bcrypt := Reference.bcrypt)
                           Scenario.later Scenario.alice Scenario.with_alice))
             "alice" "alice@example.com" "secret1");
      try (split; [reflexivity | discriminate]).
    + vm_compute. discriminate.
    + exists Scenario.alice_row. vm_compute. auto.
  - apply (proj1 (proj2 (proj2 (register_rejections
                                  (bcrypt := Reference.bcrypt)
                                  Scenario.day1 Scenario.alice
                                  Scenario.start)))
             "alice" "alice@example.com" "secret1");
      try (split; [reflexivity | discriminate]).
    + vm_compute. discriminate.
    + intros r [].
Defined.

(** ** Login failures *)

(** C2, as stated, fails: with both fields present but the password empty,
    a login for an unknown username is answered 400, not 401. *)
Lemma unknown_user_empty_password :
  let body := LoginBody.make (Some "ghost") (Some "") in
  LoginBody.username body <> None /\ LoginBody.password body <> None
  /\ Sql.get_by_username "ghost" (db Scenario.with_alice) = None
  /\ status (fst (Login (bcrypt := Reference.bcrypt) (jwt := Reference.jwt)
                    Scenario.later body Scenario.with_alice)) = 400.
Proof. vm_compute. repeat split; discriminate. Qed.

(** C2 (amended): for every Login call whose two fields are present and not
    empty, an unknown username is answered 401, and a known username whose
    password bcrypt.compare does not accept for the stored digest is answered
    401 too; the two answers are the same response, status and body (error
    'Authentication failed', message 'Invalid username or password'). *)
Theorem login_failures_indistinguishable
    {bcrypt : Bcrypt} {jwt : JsonWebToken}
    env1 u1 p1 w1 env2 u2 p2 w2 account :
  u1 <> "" -> p1 <> "" -> u2 <> "" -> p2 <> "" ->
  Sql.get_by_username u1 (db w1) = None ->
  Sql.get_by_username u2 (db w2) = Some account ->
  bcrypt_compare p2 (User.password_hash account) = false ->
  let unknown := fst (Login env1 (LoginBody.make (Some u1) (Some p1)) w1) in
  let wrong := fst (Login env2 (LoginBody.make (Some u2) (Some p2)) w2) in
  status unknown = 401 /\ status wrong = 401
  /\ unknown = wrong /\ unknown = InvalidCredentials.
Proof.
  intros Hu1 Hp1 Hu2 Hp2 Hnone Hsome Hcmp unknown wrong.
  assert (E1 : unknown = InvalidCredentials).
  { apply (Login_unknown env1 _ u1 p1); cbn; auto using truthy_nonempty. }
  assert (E2 : wrong = InvalidCredentials).
  { apply (Login_wrong_password env2 _ u2 p2 w2 account);
      cbn; auto using truthy_nonempty. }
  rewrite E1, E2. repeat split.
Qed.

Lemma login_failures_indistinguishable_witness :
  fst (Login (bcrypt := Reference.bcrypt) (jwt := Reference.jwt) Scenario.later
         (LoginBody.make (Some "ghost") (Some "secret1")) Scenario.with_alice)
  = fst (Login (bcrypt := Reference.bcrypt) (jwt := Reference.jwt) Scenario.later
           (LoginBody.make (Some "alice") (Some "secret2")) Scenario.with_alice).
Proof.
  apply (login_failures_indistinguishable
           (bcrypt := Reference.bcrypt) (jwt := Reference.jwt)
           Scenario.later "ghost" "secret1" Scenario.with_alice
           Scenario.later "alice" "secret2" Scenario.with_alice
           Scenario.alice_row);
    try discriminate; vm_compute; reflexivity.
Defined.

(** ** The guard of the protected routes *)

(** C3, as stated, fails: the guard never looks at the scheme.  A header
    whose first part is not 'Bearer' is not answered MalformedHeader: with a
    verifiable token as its second part the request reaches the downstream
    handler. *)
Lemma basic_scheme_passes_guard :
  let header := "Basic " ++ Scenario.alice_token in
  Js.split " " header = ["Basic"; Scenario.alice_token]
  /\ "Basic" <> "Bearer"
  /\ fst (AuthGuard (jwt := Reference.jwt) Scenario.later (Some header)
            Scenario.with_alice)
     = Next [("userId", JNum 1); ("username", JStr "alice");
             ("email", JStr "alice@example.com");
             ("iat", JNum 1706123456); ("exp", JNum 1706209856)].
Proof.
  vm_compute. repeat split. discriminate.
Qed.

(** C3 (amended): the guard answers MissingToken when the Authorization
    header is absent or empty; MalformedHeader when the header has no second
    space-separated part or an empty one; InvalidToken when that second part
    is not accepted by jwt.verify; the status is 401 in the three cases.  The
    first part of the header is not compared with 'Bearer' and further parts
    are ignored: a header [scheme token] or [scheme token extra] reaches the
    downstream handler exactly when jwt.verify accepts [token], with the
    decoded claims, and no request reaches it otherwise. *)
Theorem auth_guard_cases {jwt : JsonWebToken} env authorization w :
  (missing authorization ->
   AuthGuard env authorization w = (Sent MissingToken, w))
  /\ (forall h,
         given authorization h ->
         missing (Js.index (Js.split " " h) 1) ->
         AuthGuard env authorization w = (Sent MalformedHeader, w))
  /\ (forall scheme token rest,
         contains " " scheme = false -> contains " " token = false ->
         token <> "" ->
         rest = "" \/ (exists extra, rest = String " " extra) ->
         authorization = Some (scheme ++ String " " (token ++ rest)) ->
         match jwt_verify token JWT_SECRET (clock env) with
         | Verified decoded => fst (AuthGuard env authorization w) = Next decoded
         | Rejected _ => fst (AuthGuard env authorization w) = Sent InvalidToken
         end)
  /\ (forall r, fst (AuthGuard env authorization w) = Sent r ->
                status r = 401)
  /\ (forall decoded,
         fst (AuthGuard env authorization w) = Next decoded ->
         exists h token,
           given authorization h
           /\ Js.index (Js.split " " h) 1 = Some token /\ token <> ""
           /\ jwt_verify token JWT_SECRET (clock env) = Verified decoded).
Proof.
  repeat apply conj.
  - intros Hm. apply AuthGuard_missing. now apply truthy_None.
  - intros h Hh Hm. apply (AuthGuard_malformed _ _ h).
    + now apply truthy_given.
    + now apply truthy_None.
  - intros scheme token rest Hs Ht Hne Hr ->.
    set (h := scheme ++ String " " (token ++ rest)).
    assert (Hh : Js.truthy (Some h) = Some h).
    { apply truthy_nonempty. subst h. destruct scheme; discriminate. }
    assert (Hp : Js.truthy (Js.index (Js.split " " h) 1) = Some token).
    { subst h. rewrite second_piece by assumption. now apply truthy_nonempty. }
    destruct (jwt_verify token JWT_SECRET (clock env)) eqn:Hv.
    + eapply AuthGuard_verified; eauto.
    + eapply AuthGuard_rejected; eauto.
  - intros r Hr. destruct (AuthGuard_sent _ _ _ _ Hr) as [->|[->| ->]];
      reflexivity.
  - apply AuthGuard_next.
Qed.

Lemma auth_guard_cases_witness :
  AuthGuard (jwt := Reference.jwt) Scenario.later None Scenario.with_alice
  = (Sent MissingToken, Scenario.with_alice)
  /\ AuthGuard (jwt := Reference.jwt) Scenario.later (Some "Bearer")
       Scenario.with_alice
     = (Sent MalformedHeader, Scenario.with_alice)
  /\ fst (AuthGuard (jwt := Reference.jwt) Scenario.later
            (Some ("Bearer" ++ String " " ("abc" ++ ""))) Scenario.with_alice)
     = Sent InvalidToken
  /\ status MissingToken = 401.
Proof.
  split; [|split; [|split]].
  - apply (proj1 (auth_guard_cases (jwt := Reference.jwt) Scenario.later None
                    Scenario.with_alice)).
    left. reflexivity.
  - apply (proj1 (proj2 (auth_guard_cases (jwt := Reference.jwt) Scenario.later
                           (Some "Bearer") Scenario.with_alice)) "Bearer").
    + split; [reflexivity | discriminate].
    + left. reflexivity.
  - apply (proj1 (proj2 (proj2
             (auth_guard_cases (jwt := Reference.jwt) Scenario.later
                (Some ("Bearer" ++ String " " ("abc" ++ "")))
                Scenario.with_alice)))
             "Bearer" "abc" "");
      try reflexivity; [discriminate | now left].
  - apply (proj1 (proj2 (proj2 (proj2
             (auth_guard_cases (jwt := Reference.jwt) Scenario.later None
                Scenario.with_alice))))).
    reflexivity.
Defined.




(** ** Registration followed by login *)

(** C1, as stated, fails: a username that is present but empty does not pass
    the presence check, whatever the other fields are. *)
Lemma empty_username_not_registered :
  let body :=
    RegisterBody.make (Some "") (Some "alice@example.com") (Some "secret1") in
  RegisterBody.username body <> None /\ RegisterBody.email body <> None
  /\ RegisterBody.password body <> None
  /\ 6 <= Js.length "secret1"
  /\ unused "" "alice@example.com" (db Scenario.start)
  /\ status (fst (Register (bcrypt := Reference.bcrypt) Scenario.day1 body
                    Scenario.start)) = 400.
Proof.
  vm_compute. repeat split; try discriminate; contradiction.
Qed.

(** C1 (amended): for every username, email and password that are present
    and not empty, with a password of length at least 6 and no existing
    account having that username or email, Register answers 201; and, bcrypt
    accepting the password for the digest it made of it, a Login with the
    same username and password, right after or after any further requests,
    answers 200 and carries a token. *)
Theorem register_then_login
    {bcrypt : Bcrypt} {jwt : JsonWebToken} {date : JsDate}
    {coercion : Coercion} env u e p w :
  u <> "" -> e <> "" -> 6 <= Js.length p ->
  unused u e (db w) ->
  bcrypt_compare p (bcrypt_hash p 10 (salt env)) = true ->
  let registration :=
    Register env (RegisterBody.make (Some u) (Some e) (Some p)) w in
  status (fst registration) = 201
  /\ forall between env',
      let answer :=
        fst (Login env' (LoginBody.make (Some u) (Some p))
               (run between (snd registration))) in
      status answer = 200
      /\ exists token, token_of answer = Some (JStr token).
Proof.
  intros Hu He Hl Hfree Hcmp registration.
  assert (Hp : p <> "") by now apply long_nonempty.
  assert (Hreg : registration
                 = (Created (Sql.next_rowid (db w)) u e, registered env u e p w)).
  { apply Register_created; cbn; auto using truthy_nonempty.
    now apply conflict_unused. }
  rewrite Hreg. cbn [fst snd]. split; [reflexivity|].
  intros between env'.
  set (answer := fst (Login env' _ _)).
  set (row := User.make (Sql.next_rowid (db w)) u e
                (bcrypt_hash p 10 (salt env)) (current_timestamp env)).
  assert (Hrow : Sql.get_by_username u (db (registered env u e p w)) = Some row).
  { apply get_by_username_new. assumption. }
  destruct (run_appends between (registered env u e p w)) as [more Hmore].
  assert (Hfound : Sql.get_by_username u
                     (db (run between (registered env u e p w))) = Some row).
  { eapply get_by_username_app; eauto. }
  assert (Hans : answer = LoggedIn env' row).
  { apply (Login_accepted env' _ u p _ row);
      cbn; auto using truthy_nonempty. }
  rewrite Hans. split; [reflexivity|].
  eexists. reflexivity.
Qed.

Lemma register_then_login_witness :
  status (fst (Register (bcrypt := Reference.bcrypt) Scenario.day1
                 Scenario.alice Scenario.start)) = 201
  /\ status (fst (Login (bcrypt := Reference.bcrypt) (jwt := Reference.jwt)
                    Scenario.later Scenario.alice_login
                    (run (bcrypt := Reference.bcrypt) (jwt := Reference.jwt)
                         (date := Reference.date)
                         (coercion := Reference.coercion)
                         [GetUsers Scenario.later None]
                         Scenario.with_alice))) = 200.
Proof.
  destruct (register_then_login
              (bcrypt := Reference.bcrypt) (jwt := Reference.jwt)
              (date := Reference.date) (coercion := Reference.coercion)
              Scenario.day1 "alice" "alice@example.com" "secret1" Scenario.start)
    as [Hreg Hlogin].
  - discriminate.
  - discriminate.
  - vm_compute. discriminate.
  - intros r [].
  - vm_compute. reflexivity.
  - split; [exact Hreg|].
    exact (proj1 (Hlogin [GetUsers Scenario.later None] Scenario.later)).
Defined.

(** ** What the responses show of an account *)

Section PublicColumns.

Lemma cons_eq {A} {a b : A} {l l' : list A} :
  a :: l = b :: l' -> a = b /\ l = l'.
Proof. intros [= -> ->]. auto. Qed.

Lemma find_public (f : User.t -> bool) g l : forall l',
  (forall r, f r = g (public r)) ->
  map public l = map public l' ->
  option_map public (find f l) = option_map public (find f l').
Proof.
  induction l as [|x l IH]; intros [|x' l'] Hf Hmap;
    try discriminate; [reflexivity|].
  cbn [map] in Hmap. destruct (cons_eq Hmap) as [Hx Hl]. cbn [find].
  rewrite (Hf x), (Hf x'), Hx.
  destruct (g (public x')); cbn; [now rewrite Hx | now apply IH].
Qed.

Lemma public_columns_public r r' :
  public r = public r' -> Sql.public_columns r = Sql.public_columns r'.
Proof.
  unfold public, Sql.public_columns. intros [= -> -> -> ->]. reflexivity.
Qed.

Lemma get_public_by_id_same equals w w' :
  same_public w w' ->
  Sql.get_public_by_id equals (db w) = Sql.get_public_by_id equals (db w').
Proof.
  intros [Hmap _]. unfold Sql.get_public_by_id.
  assert (H := find_public (fun r => equals (User.id r))
                 (fun c => equals (fst (fst (fst c)))) _ _
                 (fun r => eq_refl) Hmap).
  destruct (find _ (users (db w))) as [r|], (find _ (users (db w'))) as [r'|];
    cbn in *; try discriminate; [|reflexivity].
  f_equal. apply public_columns_public. congruence.
Qed.

Lemma all_public_same w w' :
  same_public w w' -> Sql.all_public (db w) = Sql.all_public (db w').
Proof.
  intros [Hmap _]. unfold Sql.all_public.
  revert Hmap. generalize (users (db w')).
  induction (users (db w)) as [|x l IH]; intros [|x' l'] Hmap;
    try discriminate; [reflexivity|].
  cbn [map] in Hmap. destruct (cons_eq Hmap) as [Hx Hl]. cbn [map].
  f_equal; [now apply public_columns_public | now apply IH].
Qed.

Lemma next_rowid_same w w' :
  same_public w w' -> Sql.next_rowid (db w) = Sql.next_rowid (db w').
Proof.
  intros [Hmap Hseq]. unfold Sql.next_rowid. rewrite Hseq. do 2 f_equal.
  revert Hmap. generalize (users (db w')).
  induction (users (db w)) as [|x l IH]; intros [|x' l'] Hmap;
    try discriminate; [reflexivity|].
  cbn [map] in Hmap. destruct (cons_eq Hmap) as [Hx Hl]. cbn [fold_right].
  rewrite (IH l' Hl). unfold public in Hx. now injection Hx as -> _ _ _.
Qed.

Lemma conflict_same u e w w' :
  same_public w w' ->
  option_map public (Sql.get_by_username_or_email u e (db w))
  = option_map public (Sql.get_by_username_or_email u e (db w')).
Proof.
  intros [Hmap _].
  apply (find_public _
           (fun c => (snd (fst (fst c)) =? u)%string
                     || (snd (fst c) =? e)%string));
    [reflexivity | assumption].
Qed.

Lemma get_by_username_same u w w' :
  same_public w w' ->
  option_map public (Sql.get_by_username u (db w))
  = option_map public (Sql.get_by_username u (db w')).
Proof.
  intros [Hmap _].
  apply (find_public _ (fun c => (snd (fst (fst c)) =? u)%string));
    [reflexivity | assumption].
Qed.

Lemma public_columns_keys l :
  Forall (has_keys ["id"; "username"; "email"; "created_at"])
         (map Sql.public_columns l).
Proof.
  apply Forall_forall. intros a Ha. apply in_map_iff in Ha.
  destruct Ha as [r [<- _]]. eexists. split; reflexivity.
Qed.

End PublicColumns.

Section Projections.

Context {bcrypt : Bcrypt} {jwt : JsonWebToken} {date : JsDate}
        {coercion : Coercion}.

Lemma shown_summary i u e :
  public_projection (JObj [("id", JNum i); ("username", JStr u); ("email", JStr e)]).
Proof. left. eexists. split; reflexivity. Qed.

Lemma shown_columns l : Forall public_projection (map Sql.public_columns l).
Proof.
  eapply Forall_impl; [|apply public_columns_keys]. intros a Ha. now right.
Qed.

Lemma shown_row equals d a :
  Sql.get_public_by_id equals d = Some a -> public_projection a.
Proof.
  unfold Sql.get_public_by_id.
  destruct (find _ _) as [r|]; [|discriminate]. intros [= <-].
  right. eexists. split; reflexivity.
Qed.

Lemma Register_projections env input w :
  successful (fst (Register env input w)) ->
  Forall public_projection (account_projections (body (fst (Register env input w)))).
Proof.
  unfold successful. step. branch; cbn [fst status body]; intros H;
    try lia.
  cbn. constructor; [apply shown_summary | constructor].
Qed.

Lemma Login_projections env input w :
  successful (fst (Login env input w)) ->
  Forall public_projection (account_projections (body (fst (Login env input w)))).
Proof.
  unfold successful. step. branch; cbn [fst status body]; intros H;
    try lia.
  cbn. constructor; [apply shown_summary | constructor].
Qed.

Lemma Profile_projections env authorization w :
  successful (fst (Profile env authorization w)) ->
  Forall public_projection
    (account_projections (body (fst (Profile env authorization w)))).
Proof.
  unfold successful. step. branch; cbn [fst status body]; intros H;
    try lia;
    cbn; (constructor; [eapply shown_row; eassumption | constructor]).
Qed.

Lemma ListAccounts_projections env authorization w :
  successful (fst (ListAccounts env authorization w)) ->
  Forall public_projection
    (account_projections (body (fst (ListAccounts env authorization w)))).
Proof.
  unfold successful. step. branch; cbn [fst status body]; intros H;
    try lia.
  destruct (prop "username" _); cbn; apply shown_columns.
Qed.

Lemma Register_names env input w :
  successful (fst (Register env input w)) ->
  ~ In "password_hash" (property_names (body (fst (Register env input w)))).
Proof.
  unfold successful. step. branch; cbn [fst status body]; intros H;
    try lia.
  cbn. intuition discriminate.
Qed.

Lemma Login_names env input w :
  successful (fst (Login env input w)) ->
  ~ In "password_hash" (property_names (body (fst (Login env input w)))).
Proof.
  unfold successful. step. branch; cbn [fst status body]; intros H;
    try lia.
  cbn. intuition discriminate.
Qed.

Lemma Profile_names env authorization w :
  successful (fst (Profile env authorization w)) ->
  ~ In "password_hash"
       (property_names (body (fst (Profile env authorization w)))).
Proof.
  unfold successful. step. branch; cbn [fst status body]; intros H;
    try lia; cbn; intuition discriminate.
Qed.

Lemma ListAccounts_names env authorization w :
  successful (fst (ListAccounts env authorization w)) ->
  ~ In "password_hash"
       (property_names (body (fst (ListAccounts env authorization w)))).
Proof.
  unfold successful. step. branch; cbn [fst status body]; intros H;
    try lia.
  destruct (prop "username" _); cbn; intuition discriminate.
Qed.

Lemma Profile_same env authorization w w' :
  same_public w w' ->
  fst (Profile env authorization w') = fst (Profile env authorization w).
Proof.
  intros Hsame. step.
  repeat (first [rewrite <- (get_public_by_id_same _ w w' Hsame) | branch1];
          step);
    reflexivity.
Qed.

Lemma ListAccounts_same env authorization w w' :
  same_public w w' ->
  fst (ListAccounts env authorization w')
  = fst (ListAccounts env authorization w).
Proof.
  intros Hsame. step.
  repeat (first [rewrite <- (all_public_same w w' Hsame) | branch1]; step);
    reflexivity.
Qed.

End Projections.

(** The answers across two bcrypt libraries: whatever digest [hash] makes
    and whatever [compare] accepts. *)
Section Digests.

Context {jwt : JsonWebToken}.
Variables hashing hashing' : Bcrypt.

Lemma Register_same env input w w' :
  same_public w w' ->
  fst (Register (bcrypt := hashing') env input w')
  = fst (Register (bcrypt := hashing) env input w).
Proof.
  intros Hsame.
  destruct (Js.truthy (RegisterBody.username input)) as [u|] eqn:Hu;
    [|now rewrite !Register_missing by auto].
  destruct (Js.truthy (RegisterBody.email input)) as [e|] eqn:He;
    [|now rewrite !Register_missing by auto].
  destruct (Js.truthy (RegisterBody.password input)) as [p|] eqn:Hp;
    [|now rewrite !Register_missing by auto].
  destruct (Z.ltb_spec (Js.length p) 6) as [Hl|Hl];
    [now rewrite !(Register_short env input u e p) by assumption|].
  assert (Hc := conflict_same u e w w' Hsame).
  destruct (Sql.get_by_username_or_email u e (db w)) as [r|] eqn:Hr,
           (Sql.get_by_username_or_email u e (db w')) as [r'|] eqn:Hr';
    try discriminate.
  - rewrite (Register_duplicate env input u e p w r),
      (Register_duplicate env input u e p w' r') by assumption.
    reflexivity.
  - rewrite (Register_created (bcrypt := hashing) env input u e p w),
      (Register_created (bcrypt := hashing') env input u e p w')
      by assumption.
    cbn [fst]. now rewrite (next_rowid_same w w').
Qed.

Lemma Login_same env input w w' :
  same_public w w' ->
  successful (fst (Login (bcrypt := hashing) env input w)) ->
  successful (fst (Login (bcrypt := hashing') env input w')) ->
  fst (Login (bcrypt := hashing') env input w')
  = fst (Login (bcrypt := hashing) env input w).
Proof.
  unfold successful. intros Hsame Hok Hok'.
  destruct (Js.truthy (LoginBody.username input)) as [u|] eqn:Hu;
    [|now rewrite !Login_missing by auto].
  destruct (Js.truthy (LoginBody.password input)) as [p|] eqn:Hp;
    [|now rewrite !Login_missing by auto].
  assert (Hc := get_by_username_same u w w' Hsame).
  destruct (Sql.get_by_username u (db w)) as [r|] eqn:Hr;
    [|rewrite (Login_unknown env input u p w) in Hok by assumption;
      cbn in Hok; lia].
  destruct (Sql.get_by_username u (db w')) as [r'|] eqn:Hr';
    [|discriminate].
  destruct (bcrypt_compare (Bcrypt := hashing) p (User.password_hash r))
    eqn:Hcmp;
    [|rewrite (Login_wrong_password env input u p w r) in Hok by assumption;
      cbn in Hok; lia].
  destruct (bcrypt_compare (Bcrypt := hashing') p (User.password_hash r'))
    eqn:Hcmp';
    [|rewrite (Login_wrong_password env input u p w' r') in Hok' by assumption;
      cbn in Hok'; lia].
  rewrite (Login_accepted env input u p w r),
    (Login_accepted env input u p w' r') by assumption.
  cbn [option_map] in Hc.
  assert (Hpub : public r = public r') by congruence.
  unfold public in Hpub. injection Hpub as Hi Hn Hm _.
  unfold LoggedIn. now rewrite Hi, Hn, Hm.
Qed.

End Digests.

(** C8: no successful response of Register, Login, Profile or List accounts
    carries a password digest, neither a stored one nor the one the request
    itself makes.  The body has no property password_hash; the account
    objects in it (its [user], the elements of its [users]) have exactly the
    properties id, username, email, with created_at for the two guarded
    routes; and the whole response is independent of every digest: it is the
    same, whenever the request succeeds, with any other bcrypt library (so
    with any other digest made of the password) and in any world that
    differs only in the stored digests. *)
Theorem successful_responses_exclude_digest
    {bcrypt : Bcrypt} {jwt : JsonWebToken} {date : JsDate}
    {coercion : Coercion} q w :
  successful (fst (handle q w)) ->
  ~ In "password_hash" (property_names (body (fst (handle q w))))
  /\ Forall public_projection
            (account_projections (body (fst (handle q w))))
  /\ forall (bcrypt' : Bcrypt) w',
       same_public w w' ->
       successful (fst (handle (bcrypt := bcrypt') q w')) ->
       fst (handle (bcrypt := bcrypt') q w')
       = fst (handle (bcrypt := bcrypt) q w).
Proof.
  intros Hok. split; [|split].
  - destruct q; cbn [handle] in *.
    + now apply Register_names.
    + now apply Login_names.
    + now apply Profile_names.
    + now apply ListAccounts_names.
  - destruct q; cbn [handle] in *.
    + now apply Register_projections.
    + now apply Login_projections.
    + now apply Profile_projections.
    + now apply ListAccounts_projections.
  - intros bcrypt' w' Hsame Hok'. destruct q; cbn [handle] in *.
    + now apply Register_same.
    + now apply Login_same.
    + now apply Profile_same.
    + now apply ListAccounts_same.
Qed.

Lemma successful_responses_exclude_digest_witness :
  let answer :=
    fst (handle (bcrypt := Reference.bcrypt) (jwt := Reference.jwt)
           (date := Reference.date) (coercion := Reference.coercion)
           (GetProfile Scenario.later
              (Some ("Bearer " ++ Scenario.alice_token)))
           Scenario.with_alice) in
  ~ In "password_hash" (property_names (body answer))
  /\ Forall public_projection (account_projections (body answer)).
Proof.
  destruct (successful_responses_exclude_digest
              (bcrypt := Reference.bcrypt) (jwt := Reference.jwt)
              (date := Reference.date) (coercion := Reference.coercion)
              (GetProfile Scenario.later
                 (Some ("Bearer " ++ Scenario.alice_token)))
              Scenario.with_alice) as [Hnames [Hshown _]].
  - vm_compute. split; [discriminate | reflexivity].
  - split; assumption.
Defined.

(** ** Issuing and verifying tokens *)

(** C5: for every claims object, secret and ttl, the token issued for them,
    verified with the same secret at any time strictly before ttl has passed
    since it was issued, is accepted, and the claims returned are the
    original claims with the issued-at and the expiry added and nothing else
    changed.  The claims are serialized as JSON text; the keyed signature is
    any function. *)
Theorem verify_issue_roundtrip
    (sign : string -> string -> string) claims secret ttl issued now :
  now < issued + ttl ->
  let decoded := TokenSpec.augment claims ttl issued in
  TokenSpec.verify JsonText.read sign
    (TokenSpec.issue JsonText.print sign claims secret ttl issued) secret now
  = Verified decoded
  /\ prop "iat" decoded = Some (JNum issued)
  /\ prop "exp" decoded = Some (JNum (issued + ttl))
  /\ forall k, k <> "iat" -> k <> "exp" -> prop k decoded = prop k claims.
Proof.
  intros Hnow decoded. subst decoded.
  rewrite (verify_issued JsonText.print JsonText.read sign)
    by apply JsonTextFacts.read_print_roundtrip.
  apply Z.leb_gt in Hnow. rewrite Hnow.
  repeat split.
  - apply augment_iat.
  - apply augment_exp.
  - apply augment_other.
Qed.

Lemma verify_issue_roundtrip_witness :
  TokenSpec.verify JsonText.read Reference.sign Scenario.alice_token
    JWT_SECRET (clock Scenario.later)
  = Verified [("userId", JNum 1); ("username", JStr "alice");
              ("email", JStr "alice@example.com");
              ("iat", JNum 1706123456); ("exp", JNum 1706209856)].
Proof.
  apply (verify_issue_roundtrip Reference.sign
           [("userId", JNum 1); ("username", JStr "alice");
            ("email", JStr "alice@example.com")]
           JWT_SECRET expiresIn_24h (clock Scenario.day1) (clock Scenario.later)).
  vm_compute. reflexivity.
Defined.

(** C6: the expiry boundary is inclusive.  An issued token verified at the
    very second of its embedded expiry is rejected as expired, and verified
    one second earlier it is accepted; at any time, it is expired exactly
    when the current time is at or past the expiry. *)
Theorem expiry_is_inclusive
    (sign : string -> string -> string) claims secret ttl issued :
  let token := TokenSpec.issue JsonText.print sign claims secret ttl issued in
  let expiry := issued + ttl in
  prop "exp" (TokenSpec.augment claims ttl issued) = Some (JNum expiry)
  /\ TokenSpec.verify JsonText.read sign token secret expiry = Rejected Expired
  /\ TokenSpec.verify JsonText.read sign token secret (expiry - 1)
     = Verified (TokenSpec.augment claims ttl issued)
  /\ forall now,
       TokenSpec.verify JsonText.read sign token secret now = Rejected Expired
       <-> expiry <= now.
Proof.
  intros token expiry. subst token expiry.
  assert (Hround := JsonTextFacts.read_print_roundtrip
                      (JObj (TokenSpec.augment claims ttl issued))).
  split; [apply augment_exp|].
  split; [|split].
  - rewrite (verify_issued JsonText.print JsonText.read sign) by assumption.
    now rewrite Z.leb_refl.
  - rewrite (verify_issued JsonText.print JsonText.read sign) by assumption.
    destruct (Z.leb_spec (issued + ttl) (issued + ttl - 1)); [lia | reflexivity].
  - intros now.
    rewrite (verify_issued JsonText.print JsonText.read sign) by assumption.
    destruct (Z.leb_spec (issued + ttl) now) as [Hle|Hlt]; split; intros Hx;
      try reflexivity; try assumption; try discriminate; lia.
Qed.

(** The token a login returns, presented as [Bearer <token>], passes the
    guard as long as fewer than 24 hours have passed, and is answered
    InvalidToken from then on. *)
Corollary login_token_lifetime
    (sign : string -> string -> string) (account : User.t) issued now w :
  let jwt := TokenSpec.library JsonText.print JsonText.read sign in
  let payload := [("userId", JNum (User.id account));
                  ("username", JStr (User.username account));
                  ("email", JStr (User.email account))] in
  let token := jwt_sign payload JWT_SECRET expiresIn_24h (clock issued) in
  fst (AuthGuard now (Some ("Bearer " ++ token)) w)
  = if clock issued + expiresIn_24h <=? clock now
    then Sent InvalidToken
    else Next (TokenSpec.augment payload expiresIn_24h (clock issued)).
Proof.
  intros jwt payload token.
  assert (Hv : jwt_verify token JWT_SECRET (clock now)
               = if clock issued + expiresIn_24h <=? clock now
                 then Rejected Expired
                 else Verified (TokenSpec.augment payload expiresIn_24h
                                  (clock issued))).
  { apply (verify_issued JsonText.print JsonText.read sign).
    apply JsonTextFacts.read_print_roundtrip. }
  assert (Hplain : contains " " token = false)
    by apply issued_plain.
  assert (Hne : token <> "").
  { unfold token. cbn [jwt_sign jwt TokenSpec.library].
    unfold TokenSpec.issue, TokenSpec.segment, TokenSpec.header.
    destruct (Base64url.encode _); discriminate. }
  assert (Hh : Js.truthy (Some ("Bearer " ++ token)) = Some ("Bearer " ++ token))
    by (apply truthy_nonempty; discriminate).
  assert (Hp : Js.truthy (Js.index (Js.split " " ("Bearer " ++ token)) 1)
               = Some token).
  { change ("Bearer " ++ token) with ("Bearer" ++ String " " token).
    rewrite <- (append_empty token) at 1.
    rewrite second_piece by auto. now apply truthy_nonempty. }
  destruct (clock issued + expiresIn_24h <=? clock now).
  - eapply AuthGuard_rejected; eauto.
  - eapply AuthGuard_verified; eauto.
Qed.

(** ** The scenarios of the specification, run *)

Example scenarios_run :
  let bcrypt := Reference.bcrypt in
  let jwt := Reference.jwt in
  let date := Reference.date in
  let coercion := Reference.coercion in
  status (fst (Register Scenario.day1 Scenario.alice Scenario.start)) = 201
  /\ fst (Login Scenario.day1 Scenario.alice_login Scenario.with_alice)
     = LoggedIn Scenario.day1 Scenario.alice_row
  /\ token_of (LoggedIn Scenario.day1 Scenario.alice_row)
     = Some (JStr Scenario.alice_token)
  /\ fst (Profile Scenario.later (Some ("Bearer " ++ Scenario.alice_token))
            Scenario.with_alice)
     = mkResponse 200
         (JObj [("message", JStr "Profile retrieved successfully");
                ("note",
                 JStr "This is a protected route - only accessible with a valid token");
                ("user", JObj [("id", JNum 1); ("username", JStr "alice");
                               ("email", JStr "alice@example.com");
                               ("created_at", JStr "2024-01-24 19:10:56")]);
                ("tokenInfo",
                 JObj [("userId", JNum 1); ("username", JStr "alice");
                       ("tokenIssuedAt", JStr "2024-01-24T19:10:56.000Z")])])
  /\ fst (Profile Scenario.later None Scenario.with_alice) = MissingToken
  /\ fst (Profile Scenario.later (Some ("Bearer " ++ Scenario.forged_token))
            Scenario.with_alice)
     = InvalidToken
  /\ fst (Register Scenario.later Scenario.alice Scenario.with_alice)
     = DuplicateAccount
  /\ fst (Register Scenario.day1
            (RegisterBody.make (Some "alice") (Some "alice@example.com")
               (Some "abc"))
            Scenario.start)
     = PasswordTooShort.
Proof. vm_compute. repeat split. Qed.

(** A token whose [userId] claim is the text ['1'] and not the number: with
    SQLite's conversion of the bound parameter the profile route finds the
    account with id 1 and answers 200. *)
Example profile_with_text_id :
  let token :=
    jwt_sign (JsonWebToken := Reference.jwt)
      [("userId", JStr "1"); ("username", JStr "alice")]
      JWT_SECRET expiresIn_24h (clock Scenario.later) in
  status (fst (Profile (jwt := Reference.jwt) (date := Reference.date)
                 (coercion := Reference.coercion) Scenario.later
                 (Some ("Bearer " ++ token)) Scenario.with_alice)) = 200.
Proof. vm_compute. reflexivity. Qed.

(* ================================================================= *)
(** * Further properties of the authentication server *)

Lemma NoDup_snoc {A} (l : list A) (x : A) :
  NoDup l -> ~ In x l -> NoDup (l ++ [x]).
Proof.
  induction l as [|y l IH]; cbn; intros Hl Hx.
  - constructor; [intros [] | constructor].
  - inversion Hl as [|? ? Hy Hl']; subst. constructor.
    + intros Hin. apply in_app_or in Hin. destruct Hin as [Hin|[->|[]]].
      * contradiction.
      * apply Hx. now left.
    + apply IH; [assumption|]. intros Hin. apply Hx. now right.
Qed.

Section Accounts.

Context {bcrypt : Bcrypt} {jwt : JsonWebToken} {date : JsDate}
        {coercion : Coercion}.

Lemma next_rowid_above d r :
  In r (users d) -> User.id r < Sql.next_rowid d.
Proof.
  unfold Sql.next_rowid. intros Hin.
  assert (H : User.id r
              <= fold_right (fun r m => Z.max (User.id r) m) 0 (users d)).
  { induction (users d) as [|x l IH]; [contradiction|].
    cbn [fold_right]. destruct Hin as [->|Hin]; [lia|].
    specialize (IH Hin). lia. }
  lia.
Qed.

(** What a registration does, in one of two ways. *)
Lemma Register_outcome env input w :
  (status (fst (Register env input w)) = 400
   /\ db (snd (Register env input w)) = db w
   /\ ~ (exists u e p,
            given (RegisterBody.username input) u
            /\ given (RegisterBody.email input) e
            /\ given (RegisterBody.password input) p
            /\ 6 <= Js.length p /\ unused u e (db w)))
  \/ (exists u e p,
         given (RegisterBody.username input) u
         /\ given (RegisterBody.email input) e
         /\ given (RegisterBody.password input) p
         /\ 6 <= Js.length p /\ unused u e (db w)
         /\ Register env input w
            = (Created (Sql.next_rowid (db w)) u e, registered env u e p w)).
Proof.
  destruct (Js.truthy (RegisterBody.username input)) as [u|] eqn:Hu.
  2:{ left. rewrite Register_missing by auto. repeat split.
      intros [u [e [p [Hgu _]]]]. apply truthy_given in Hgu. congruence. }
  destruct (Js.truthy (RegisterBody.email input)) as [e|] eqn:He.
  2:{ left. rewrite Register_missing by auto. repeat split.
      intros [u' [e [p [_ [Hge _]]]]]. apply truthy_given in Hge. congruence. }
  destruct (Js.truthy (RegisterBody.password input)) as [p|] eqn:Hp.
  2:{ left. rewrite Register_missing by auto. repeat split.
      intros [u' [e' [p [_ [_ [Hgp _]]]]]]. apply truthy_given in Hgp.
      congruence. }
  destruct (Z.ltb_spec (Js.length p) 6) as [Hl|Hl].
  { left. rewrite (Register_short env input u e p) by assumption.
    repeat split.
    intros [u' [e' [p' [_ [_ [Hgp [Hl' _]]]]]]]. apply truthy_given in Hgp.
    assert (p' = p) by congruence. subst. lia. }
  destruct (Sql.get_by_username_or_email u e (db w)) as [r|] eqn:Hr.
  { left. rewrite (Register_duplicate env input u e p w r) by assumption.
    repeat split.
    intros [u' [e' [p' [Hgu [Hge [_ [_ Hfree]]]]]]].
    apply truthy_given in Hgu, Hge.
    assert (u' = u) by congruence. assert (e' = e) by congruence. subst.
    apply conflict_unused in Hfree. congruence. }
  right. exists u, e, p.
  split; [now apply truthy_Some|]. split; [now apply truthy_Some|].
  split; [now apply truthy_Some|]. split; [assumption|].
  split; [now apply conflict_unused | now apply Register_created].
Qed.

End Accounts.

(** X1: an account, once created, is never deleted or changed: whatever
    requests are served, every account of the store stays as it is, at its
    place in the table. *)
Theorem accounts_are_permanent
    {bcrypt : Bcrypt} {jwt : JsonWebToken} {date : JsDate}
    {coercion : Coercion} qs w i account :
  nth_error (users (db w)) i = Some account ->
  nth_error (users (db (run qs w))) i = Some account.
Proof.
  intros H. destruct (run_appends qs w) as [more ->].
  rewrite nth_error_app1; [assumption|].
  apply nth_error_Some. congruence.
Qed.

Lemma accounts_are_permanent_witness :
  nth_error
    (users (db (run (bcrypt := Reference.bcrypt) (jwt := Reference.jwt)
                  (date := Reference.date) (coercion := Reference.coercion)
                  [PostRegister Scenario.later
                     (RegisterBody.make (Some "bob") (Some "bob@example.com")
                        (Some "bobspassword"));
                   PostLogin Scenario.later Scenario.alice_login]
                  Scenario.with_alice))) 0
  = Some Scenario.alice_row.
Proof.
  apply (accounts_are_permanent (bcrypt := Reference.bcrypt)
           (jwt := Reference.jwt) (date := Reference.date)
           (coercion := Reference.coercion)).
  vm_compute. reflexivity.
Defined.

(** X2: the uniqueness the table declares is kept by the server: from a
    store in which usernames, emails and ids are each unique, any sequence of
    requests leads to such a store. *)
Theorem uniqueness_is_kept
    {bcrypt : Bcrypt} {jwt : JsonWebToken} {date : JsDate}
    {coercion : Coercion} qs w :
  consistent (db w) -> consistent (db (run qs w)).
Proof.
  revert w. induction qs as [|q qs IH]; intros w Hw; [exact Hw|].
  cbn [run]. apply IH. clear IH.
  assert (Hsame : db (snd (handle q w)) = db w -> consistent (db (snd (handle q w))))
    by (intros ->; exact Hw).
  destruct q as [env input|env input|env h|env h]; cbn [handle] in *.
  - destruct (Register_outcome env input w)
      as [[_ [Hdb _]] | [u [e [p [_ [_ [_ [_ [Hfree Hreg]]]]]]]]];
      [now apply Hsame|].
    rewrite Hreg. cbn [snd registered db users].
    destruct Hw as [Hu [He Hi]]. unfold consistent. cbn [users].
    rewrite !map_app. cbn [map User.username User.email User.id].
    repeat split; apply NoDup_snoc; try assumption.
    + intros Hin. apply in_map_iff in Hin. destruct Hin as [r [Hr Hin]].
      destruct (Hfree r Hin). contradiction.
    + intros Hin. apply in_map_iff in Hin. destruct Hin as [r [Hr Hin]].
      destruct (Hfree r Hin). contradiction.
    + intros Hin. apply in_map_iff in Hin. destruct Hin as [r [Hr Hin]].
      pose proof (next_rowid_above _ _ Hin). lia.
  - apply Hsame, Login_reads.
  - apply Hsame, Profile_reads.
  - apply Hsame, ListAccounts_reads.
Qed.

Lemma uniqueness_is_kept_witness :
  consistent
    (db (run (bcrypt := Reference.bcrypt) (jwt := Reference.jwt)
           (date := Reference.date) (coercion := Reference.coercion)
           [PostRegister Scenario.day1 Scenario.alice;
            PostRegister Scenario.later Scenario.alice;
            PostRegister Scenario.later
              (RegisterBody.make (Some "bob") (Some "bob@example.com")
                 (Some "bobspassword"))]
           Scenario.start)).
Proof.
  apply (uniqueness_is_kept (bcrypt := Reference.bcrypt)
           (jwt := Reference.jwt) (date := Reference.date)
           (coercion := Reference.coercion)).
  repeat split; constructor.
Defined.

Section OverlapFacts.

Context {bcrypt : Bcrypt} {jwt : JsonWebToken} {date : JsDate}
        {coercion : Coercion}.

Lemma insert_taken u e h now d :
  (exists r, In r (users d) /\ (User.username r = u \/ User.email r = e)) ->
  exists message, Sql.insert_user u e h now d = inl message.
Proof.
  intros [r [Hin Hr]]. unfold Sql.insert_user.
  destruct (existsb (fun r => (User.username r =? u)%string) (users d))
    eqn:Hu; [eauto|].
  destruct (existsb (fun r => (User.email r =? e)%string) (users d))
    eqn:He; [eauto|].
  exfalso. destruct Hr as [Hr|Hr].
  - assert (Hx : existsb (fun r => (User.username r =? u)%string) (users d)
                 = true).
    { apply existsb_exists. exists r. split; [assumption|].
      now apply String.eqb_eq. }
    congruence.
  - assert (Hx : existsb (fun r => (User.email r =? e)%string) (users d)
                 = true).
    { apply existsb_exists. exists r. split; [assumption|].
      now apply String.eqb_eq. }
    congruence.
Qed.

(** The handler reaches the [await] exactly when the call is valid and the
    SELECT finds no account; it has then written nothing.  Otherwise it has
    answered 400. *)
Lemma register_until_await_cases input w :
  (exists r w', register_until_await input w = (Sent r, w')
                /\ status r = 400
                /\ ~ (exists u e p,
                         given (RegisterBody.username input) u
                         /\ given (RegisterBody.email input) e
                         /\ given (RegisterBody.password input) p
                         /\ 6 <= Js.length p /\ unused u e (db w)))
  \/ (exists u e p awaiting,
         given (RegisterBody.username input) u
         /\ given (RegisterBody.email input) e
         /\ given (RegisterBody.password input) p
         /\ 6 <= Js.length p /\ unused u e (db w)
         /\ register_until_await input w = (Next (u, e, p), awaiting)
         /\ db awaiting = db w).
Proof.
  unfold register_until_await.
  destruct (Js.truthy (RegisterBody.username input)) as [u|] eqn:Hu.
  2:{ left. eexists _, _. split; [reflexivity|]. split; [reflexivity|].
      intros [u [e [p [Hgu _]]]]. apply truthy_given in Hgu. congruence. }
  destruct (Js.truthy (RegisterBody.email input)) as [e|] eqn:He.
  2:{ left. eexists _, _. split; [reflexivity|]. split; [reflexivity|].
      intros [u' [e [p [_ [Hge _]]]]]. apply truthy_given in Hge. congruence. }
  destruct (Js.truthy (RegisterBody.password input)) as [p|] eqn:Hp.
  2:{ left. eexists _, _. split; [reflexivity|]. split; [reflexivity|].
      intros [u' [e' [p [_ [_ [Hgp _]]]]]]. apply truthy_given in Hgp.
      congruence. }
  destruct (Z.ltb_spec (Js.length p) 6) as [Hl|Hl].
  { left. eexists _, _. split; [reflexivity|]. split; [reflexivity|].
    intros [u' [e' [p' [_ [_ [Hgp [Hl' _]]]]]]]. apply truthy_given in Hgp.
    assert (p' = p) by congruence. subst. lia. }
  step.
  destruct (Sql.get_by_username_or_email u e (db w)) as [r|] eqn:Hr.
  { left. eexists _, _. split; [reflexivity|]. split; [reflexivity|].
    intros [u' [e' [p' [Hgu [Hge [_ [_ Hfree]]]]]]].
    apply truthy_given in Hgu, Hge.
    assert (u' = u) by congruence. assert (e' = e) by congruence. subst.
    apply conflict_unused in Hfree. congruence. }
  right. exists u, e, p. eexists.
  split; [now apply truthy_Some|]. split; [now apply truthy_Some|].
  split; [now apply truthy_Some|]. split; [assumption|].
  split; [now apply conflict_unused|]. split; reflexivity.
Qed.

(** The rest of the handler, when the username or the email has been taken
    while it waited: the INSERT fails and the [catch] block answers. *)
Lemma register_after_await_taken env u e p w :
  (exists r, In r (users (db w))
             /\ (User.username r = u \/ User.email r = e)) ->
  let outcome :=
    serve (try_catch (register_after_await env (u, e, p)) register_failed) w in
  status (fst outcome) = 500
  /\ error_of (fst outcome) = Some (JStr "Registration failed")
  /\ db (snd outcome) = db w.
Proof.
  intros Htaken.
  destruct (insert_taken u e (bcrypt_hash p 10 (salt env))
              (current_timestamp env) (db w) Htaken) as [message Hm].
  unfold register_after_await, register_failed. step. rewrite Hm.
  repeat split.
Qed.

(** The rest of the handler, when both are still free. *)
Lemma register_after_await_free env u e p w :
  unused u e (db w) ->
  let outcome :=
    serve (try_catch (register_after_await env (u, e, p)) register_failed) w in
  fst outcome = Created (Sql.next_rowid (db w)) u e
  /\ db (snd outcome)
     = {| users := users (db w) ++
            [User.make (Sql.next_rowid (db w)) u e
               (bcrypt_hash p 10 (salt env)) (current_timestamp env)];
          seq := Sql.next_rowid (db w) |}.
Proof.
  intros Hfree. apply conflict_unused in Hfree.
  unfold register_after_await, register_failed. step.
  rewrite (insert_after_check _ _ _ _ _ Hfree). step.
  split; reflexivity.
Qed.

Lemma register_after_await_status env fields w :
  let outcome :=
    serve (try_catch (register_after_await env fields) register_failed) w in
  status (fst outcome) = 201 \/ status (fst outcome) = 500.
Proof.
  destruct fields as [[u e] p].
  unfold register_after_await, register_failed. step.
  destruct (Sql.insert_user _ _ _ _ _) as [message|[rowid d]];
    [right | left]; reflexivity.
Qed.

Lemma Register_across_nothing env input w :
  Register_across env input [] w = Register env input w.
Proof.
  unfold Register_across, register_until_await, register_after_await,
    register_failed.
  cbn [run]. step. branch; reflexivity.
Qed.

End OverlapFacts.

(** X3: the outcomes of a registration that other requests overlap.  The
    handler awaits the digest between its SELECT and its INSERT; with the
    requests [between] handled while it waits:
    - with nothing in between it is the Register operation;
    - the answer is 201, 400 or 500;
    - it is 400 exactly when the call is not valid or the SELECT found the
      username or the email, which is decided before the wait;
    - for a valid call whose username and email were free at the SELECT:
      if one of them has been taken when the handler resumes, the INSERT
      fails on its UNIQUE constraint, the answer is 500 'Registration
      failed' and this request adds no account; if both are still free, and
      SQLite has a rowid left, the answer is 201 with the next rowid and the
      account is appended to the accounts of that moment. *)
Theorem registration_overlap_outcomes
    {bcrypt : Bcrypt} {jwt : JsonWebToken} {date : JsDate}
    {coercion : Coercion} env input between w :
  let resumed := run between (snd (register_until_await input w)) in
  let outcome := Register_across env input between w in
  Register_across env input [] w = Register env input w
  /\ (status (fst outcome) = 201 \/ status (fst outcome) = 400
      \/ status (fst outcome) = 500)
  /\ (status (fst outcome) = 400
      <-> ~ (exists u e p,
                given (RegisterBody.username input) u
                /\ given (RegisterBody.email input) e
                /\ given (RegisterBody.password input) p
                /\ 6 <= Js.length p /\ unused u e (db w)))
  /\ forall u e p,
       given (RegisterBody.username input) u ->
       given (RegisterBody.email input) e ->
       given (RegisterBody.password input) p ->
       6 <= Js.length p ->
       unused u e (db w) ->
       ((exists r, In r (users (db resumed))
                   /\ (User.username r = u \/ User.email r = e)) ->
        status (fst outcome) = 500
        /\ error_of (fst outcome) = Some (JStr "Registration failed")
        /\ db (snd outcome) = db resumed)
       /\ (unused u e (db resumed) ->
           Sql.next_rowid (db resumed) <= max_rowid ->
           fst outcome = Created (Sql.next_rowid (db resumed)) u e
           /\ db (snd outcome)
              = {| users := users (db resumed) ++
                     [User.make (Sql.next_rowid (db resumed)) u e
                        (bcrypt_hash p 10 (salt env))
                        (current_timestamp env)];
                   seq := Sql.next_rowid (db resumed) |}).
Proof.
  intros resumed outcome. subst resumed outcome.
  split; [apply Register_across_nothing|].
  unfold Register_across.
  destruct (register_until_await_cases input w)
    as [[r [w' [-> [H400 Hnot]]]]
       | [u [e [p [awaiting [Hu [He [Hp [Hl [Hfree [-> Hdb]]]]]]]]]]];
    cbn [fst snd].
  - split; [now right; left|]. split; [tauto|].
    intros u e p Hu He Hp Hl Hfree. exfalso. apply Hnot.
    exists u, e, p. auto.
  - assert (Hstatus := register_after_await_status env (u, e, p)
                         (run between awaiting)).
    cbv zeta in Hstatus.
    split; [tauto|]. split.
    + split; [intros H; destruct Hstatus; congruence|].
      intros Hnot. exfalso. apply Hnot. exists u, e, p. auto.
    + intros u' e' p' [Hu' _] [He' _] [Hp' _] _ _.
      destruct Hu as [Hu _], He as [He _], Hp as [Hp _].
      assert (u' = u) by congruence. assert (e' = e) by congruence.
      assert (p' = p) by congruence. subst u' e' p'.
      split.
      * apply register_after_await_taken.
      * intros Hstill _. now apply register_after_await_free.
Qed.

Lemma registration_overlap_outcomes_witness :
  status
    (fst (Register_across (bcrypt := Reference.bcrypt) (jwt := Reference.jwt)
            (date := Reference.date) (coercion := Reference.coercion)
            Scenario.day1 Scenario.alice
            [PostRegister Scenario.day1
               (RegisterBody.make (Some "alice") (Some "other@example.com")
                  (Some "secret2"))]
            Scenario.start)) = 500.
Proof.
  destruct (registration_overlap_outcomes
              (bcrypt := Reference.bcrypt) (jwt := Reference.jwt)
              (date := Reference.date) (coercion := Reference.coercion)
              Scenario.day1 Scenario.alice
              [PostRegister Scenario.day1
                 (RegisterBody.make (Some "alice") (Some "other@example.com")
                    (Some "secret2"))]
              Scenario.start) as [_ [_ [_ Hvalid]]].
  destruct (Hvalid "alice" "alice@example.com" "secret1") as [Htaken _].
  - split; [reflexivity | discriminate].
  - split; [reflexivity | discriminate].
  - split; [reflexivity | discriminate].
  - vm_compute. discriminate.
  - intros r [].
  - apply Htaken. eexists. split; [left; reflexivity|].
    left. reflexivity.
Defined.

(** X4: a login succeeds only for an account of the store: a 200 answer
    means that both fields were given, that the store has an account with
    that username, and that bcrypt.compare accepted the password for the
    digest of that account; the user and the token of the answer are made of
    the id, username and email of that account. *)
Theorem login_success_is_sound
    {bcrypt : Bcrypt} {jwt : JsonWebToken} env input w :
  status (fst (Login env input w)) = 200 ->
  exists u p account,
    given (LoginBody.username input) u /\ given (LoginBody.password input) p
    /\ In account (users (db w)) /\ User.username account = u
    /\ bcrypt_compare p (User.password_hash account) = true
    /\ fst (Login env input w) = LoggedIn env account.
Proof.
  intros Hok.
  destruct (Js.truthy (LoginBody.username input)) as [u|] eqn:Hu;
    [|rewrite Login_missing in Hok by auto; discriminate].
  destruct (Js.truthy (LoginBody.password input)) as [p|] eqn:Hp;
    [|rewrite Login_missing in Hok by auto; discriminate].
  destruct (Sql.get_by_username u (db w)) as [account|] eqn:Hr;
    [|rewrite (Login_unknown env input u p) in Hok by assumption;
      discriminate].
  destruct (bcrypt_compare p (User.password_hash account)) eqn:Hc;
    [|rewrite (Login_wrong_password env input u p w account) in Hok
        by assumption; discriminate].
  exists u, p, account.
  assert (Hfound := Hr).
  unfold Sql.get_by_username in Hfound. apply find_some in Hfound.
  destruct Hfound as [Hin Hname]. apply String.eqb_eq in Hname.
  split; [now apply truthy_Some|]. split; [now apply truthy_Some|].
  split; [assumption|]. split; [assumption|]. split; [assumption|].
  now apply (Login_accepted env input u p w account).
Qed.

Lemma login_success_is_sound_witness :
  exists u p account,
    given (Some "alice") u /\ given (Some "secret1") p
    /\ In account (users (db Scenario.with_alice)) /\ User.username account = u
    /\ bcrypt_compare (Bcrypt := Reference.bcrypt) p (User.password_hash account)
       = true
    /\ fst (Login (bcrypt := Reference.bcrypt) (jwt := Reference.jwt)
              Scenario.later Scenario.alice_login Scenario.with_alice)
       = LoggedIn (jwt := Reference.jwt) Scenario.later account.
Proof.
  apply (login_success_is_sound (bcrypt := Reference.bcrypt)
           (jwt := Reference.jwt) Scenario.later Scenario.alice_login
           Scenario.with_alice).
  vm_compute. reflexivity.
Defined.

(** X5: the store changes only through a successful registration: if a
    request leaves a different store behind, it was a POST /api/register
    answered 201.  Login, Profile and the account list only read. *)
Theorem only_registration_writes
    {bcrypt : Bcrypt} {jwt : JsonWebToken} {date : JsDate}
    {coercion : Coercion} q w :
  db (snd (handle q w)) <> db w ->
  exists env input, q = PostRegister env input
                    /\ status (fst (handle q w)) = 201.
Proof.
  intros Hdiff. destruct q as [env input|env input|env h|env h];
    cbn [handle] in *.
  - exists env, input. split; [reflexivity|].
    destruct (Register_outcome env input w)
      as [[_ [Hdb _]] | [u [e [p [_ [_ [_ [_ [_ Hreg]]]]]]]]];
      [contradiction|].
    rewrite Hreg. reflexivity.
  - now rewrite Login_reads in Hdiff.
  - now rewrite Profile_reads in Hdiff.
  - now rewrite ListAccounts_reads in Hdiff.
Qed.

Lemma only_registration_writes_witness :
  exists env input,
    PostRegister Scenario.day1 Scenario.alice = PostRegister env input
    /\ status (fst (handle (bcrypt := Reference.bcrypt) (jwt := Reference.jwt)
                      (date := Reference.date) (coercion := Reference.coercion)
                      (PostRegister Scenario.day1 Scenario.alice)
                      Scenario.start)) = 201.
Proof.
  apply (only_registration_writes (bcrypt := Reference.bcrypt)
           (jwt := Reference.jwt) (date := Reference.date)
           (coercion := Reference.coercion)).
  vm_compute. discriminate.
Defined.

(** X6: a successful registration adds exactly one account, at the end of
    the table: its id is larger than the id of every account before it and
    is the id the answer reports, its digest is bcrypt.hash of the password
    with 10 rounds (the password itself is stored nowhere), and its
    created_at is the current timestamp. *)
Theorem registration_adds_one_account {bcrypt : Bcrypt} env input w :
  status (fst (Register env input w)) = 201 ->
  exists u e p rowid,
    given (RegisterBody.username input) u
    /\ given (RegisterBody.email input) e
    /\ given (RegisterBody.password input) p
    /\ users (db (snd (Register env input w)))
       = (users (db w)
          ++ [User.make rowid u e (bcrypt_hash p 10 (salt env))
                (current_timestamp env)])%list
    /\ (forall r, In r (users (db w)) -> User.id r < rowid)
    /\ fst (Register env input w) = Created rowid u e.
Proof.
  intros Hok.
  destruct (Register_outcome env input w)
    as [[H400 _] | [u [e [p [Hu [He [Hp [_ [_ Hreg]]]]]]]]]; [congruence|].
  exists u, e, p, (Sql.next_rowid (db w)). rewrite Hreg.
  split; [assumption|]. split; [assumption|]. split; [assumption|].
  split; [reflexivity|]. split; [|reflexivity].
  intros r Hin. now apply next_rowid_above.
Qed.

Lemma registration_adds_one_account_witness :
  exists u e p rowid,
    given (Some "alice") u /\ given (Some "alice@example.com") e
    /\ given (Some "secret1") p
    /\ users (db Scenario.with_alice)
       = (users (db Scenario.start)
          ++ [User.make rowid u e
                (bcrypt_hash (Bcrypt := Reference.bcrypt) p 10
                   (salt Scenario.day1))
                (current_timestamp Scenario.day1)])%list
    /\ (forall r, In r (users (db Scenario.start)) -> User.id r < rowid)
    /\ fst (Register (bcrypt := Reference.bcrypt) Scenario.day1 Scenario.alice
              Scenario.start) = Created rowid u e.
Proof.
  apply (registration_adds_one_account (bcrypt := Reference.bcrypt)
           Scenario.day1 Scenario.alice Scenario.start).
  vm_compute. reflexivity.
Defined.

(** X7: a header in which two spaces follow the scheme, or with no space at
    all, is answered MalformedHeader whatever else it holds: the token of
    ['Bearer  <token>'] is never looked at. *)
Theorem guard_needs_one_space {jwt : JsonWebToken} env scheme rest w :
  contains " " scheme = false ->
  scheme <> "" ->
  AuthGuard env (Some scheme) w = (Sent MalformedHeader, w)
  /\ AuthGuard env (Some (scheme ++ String " " (String " " rest))) w
     = (Sent MalformedHeader, w).
Proof.
  intros Hs Hne. split.
  - apply (AuthGuard_malformed _ _ scheme).
    + now apply truthy_nonempty.
    + now rewrite split_without.
  - apply (AuthGuard_malformed _ _ (scheme ++ String " " (String " " rest))).
    + apply truthy_nonempty. destruct scheme; [contradiction | discriminate].
    + rewrite (split_at _ _ _ Hs).
      change (String " " rest) with ("" ++ String " " rest).
      now rewrite (split_at " " "" rest).
Qed.

Lemma guard_needs_one_space_witness :
  AuthGuard (jwt := Reference.jwt) Scenario.later (Some "Bearer")
    Scenario.with_alice
  = (Sent MalformedHeader, Scenario.with_alice)
  /\ AuthGuard (jwt := Reference.jwt) Scenario.later
       (Some ("Bearer" ++ String " " (String " " Scenario.alice_token)))
       Scenario.with_alice
     = (Sent MalformedHeader, Scenario.with_alice).
Proof.
  apply (guard_needs_one_space (jwt := Reference.jwt));
    [reflexivity | discriminate].
Defined.

Section ProfileRoute.

Context {jwt : JsonWebToken} {date : JsDate} {coercion : Coercion}.

Lemma Profile_found env authorization w decoded n issued iso account :
  fst (AuthGuard env authorization w) = Next decoded ->
  prop "userId" decoded = Some (JNum n) ->
  find (fun r => User.id r =? n) (users (db w)) = Some account ->
  prop "iat" decoded = Some (JNum issued) ->
  toISOString (issued * 1000) = Some iso ->
  fst (Profile env authorization w)
  = mkResponse 200
      (JObj [("message", JStr "Profile retrieved successfully");
             ("note",
              JStr "This is a protected route - only accessible with a valid token");
             ("user", Sql.public_columns account);
             ("tokenInfo",
              JObj (literal [("userId", Some (JNum n));
                             ("username", prop "username" decoded);
                             ("tokenIssuedAt", Some (JStr iso))]))]).
Proof.
  intros Hguard Hid Hrow Hiat Hiso.
  destruct (AuthGuard_next _ _ _ _ Hguard) as [h [token [Hh [Ht [Hne Hv]]]]].
  apply truthy_given in Hh.
  assert (Htok : Js.truthy (Js.index (Js.split " " h) 1) = Some token)
    by (rewrite Ht; now apply truthy_nonempty).
  step. rewrite Hh, Htok. step. rewrite Hv. step.
  rewrite Hid. step.
  change (Sql.get_public_by_id (fun id => id =? n) (db w))
    with (option_map Sql.public_columns
            (find (fun r => User.id r =? n) (users (db w)))).
  rewrite Hrow. cbn [option_map]. step.
  unfold iat_milliseconds. rewrite Hiat, Hiso. step. reflexivity.
Qed.

Lemma find_new_row (d : list User.t) row more :
  (forall r, In r d -> User.id r < User.id row) ->
  find (fun r => User.id r =? User.id row) (d ++ row :: more) = Some row.
Proof.
  induction d as [|x d IH]; cbn [app find]; intros Hlt.
  - now rewrite Z.eqb_refl.
  - destruct (Z.eqb_spec (User.id x) (User.id row)) as [Heq|_].
    + specialize (Hlt x (or_introl eq_refl)). lia.
    + apply IH. intros r Hin. apply Hlt. now right.
Qed.

End ProfileRoute.

(** X8: register, log in, read the profile.  With tokens in the format of
    section 4.3 (any keyed signature), the token a login returns for a newly
    registered account, presented as [Bearer <token>] within 24 hours, makes
    GET /api/profile answer 200 with the id, username, email and created_at
    of that very account, whatever requests were served in between. *)
Theorem profile_shows_own_account
    {bcrypt : Bcrypt} {date : JsDate}
    {coercion : Coercion} (sign : string -> string -> string)
    env u e p w between env1 after env2 iso :
  let jwt := TokenSpec.library JsonText.print JsonText.read sign in
  u <> "" -> e <> "" -> 6 <= Js.length p ->
  unused u e (db w) ->
  bcrypt_compare p (bcrypt_hash p 10 (salt env)) = true ->
  clock env2 < clock env1 + expiresIn_24h ->
  toISOString (clock env1 * 1000) = Some iso ->
  let w1 := run between
              (snd (Register env (RegisterBody.make (Some u) (Some e) (Some p)) w)) in
  let login := Login env1 (LoginBody.make (Some u) (Some p)) w1 in
  let account :=
    User.make (Sql.next_rowid (db w)) u e (bcrypt_hash p 10 (salt env))
      (current_timestamp env) in
  exists token,
    token_of (fst login) = Some (JStr token)
    /\ fst (Profile env2 (Some ("Bearer " ++ token)) (run after (snd login)))
       = mkResponse 200
           (JObj [("message", JStr "Profile retrieved successfully");
                  ("note",
                   JStr "This is a protected route - only accessible with a valid token");
                  ("user",
                   JObj [("id", JNum (User.id account));
                         ("username", JStr u); ("email", JStr e);
                         ("created_at", JStr (current_timestamp env))]);
                  ("tokenInfo",
                   JObj [("userId", JNum (User.id account));
                         ("username", JStr u);
                         ("tokenIssuedAt", JStr iso)])]).
Proof.
  intros jwt Hu He Hl Hfree Hcmp Hlife Hiso w1 login account.
  assert (Hp : p <> "") by now apply long_nonempty.
  assert (Hreg : Register env (RegisterBody.make (Some u) (Some e) (Some p)) w
                 = (Created (Sql.next_rowid (db w)) u e, registered env u e p w)).
  { apply Register_created; cbn; auto using truthy_nonempty.
    now apply conflict_unused. }
  assert (Hrow : Sql.get_by_username u (db (registered env u e p w))
                 = Some account)
    by now apply get_by_username_new.
  subst login w1. rewrite Hreg. cbn [snd].
  set (login := Login env1 _ _).
  destruct (run_appends between (registered env u e p w)) as [more Hmore].
  assert (Hfound : Sql.get_by_username u
                     (db (run between (registered env u e p w)))
                   = Some account)
    by (eapply get_by_username_app; eauto).
  assert (Hlogin : fst login = LoggedIn env1 account).
  { apply (Login_accepted env1 _ u p _ account);
      cbn; auto using truthy_nonempty. }
  set (payload := [("userId", JNum (User.id account));
                   ("username", JStr (User.username account));
                   ("email", JStr (User.email account))]).
  exists (jwt_sign payload JWT_SECRET expiresIn_24h (clock env1)).
  split; [rewrite Hlogin; reflexivity|].
  set (w2 := run after (snd login)).
  assert (Hguard := login_token_lifetime sign account env1 env2 w2).
  cbv zeta in Hguard. fold payload in Hguard.
  apply Z.leb_gt in Hlife. rewrite Hlife in Hguard.
  assert (Husers : exists rest,
             users (db w2) = (users (db w) ++ account :: rest)%list).
  { destruct (run_appends after (snd login)) as [more2 Hmore2].
    subst w2. rewrite Hmore2. unfold login. rewrite Login_reads, Hmore.
    cbn [registered db users]. rewrite <- !app_assoc. cbn [app]. eauto. }
  destruct Husers as [rest Husers].
  rewrite (Profile_found env2 _ w2 _ (User.id account) (clock env1) iso account
             Hguard).
  - rewrite (augment_other payload) by discriminate. reflexivity.
  - rewrite (augment_other payload) by discriminate. reflexivity.
  - rewrite Husers. apply find_new_row.
    intros r Hin. now apply next_rowid_above.
  - apply augment_iat.
  - assumption.
Qed.

Lemma profile_shows_own_account_witness :
  exists token,
    token_of (fst (Login (bcrypt := Reference.bcrypt) (jwt := Reference.jwt)
                     Scenario.day1 Scenario.alice_login Scenario.with_alice))
    = Some (JStr token)
    /\ status (fst (Profile (jwt := Reference.jwt) (date := Reference.date)
    (coercion := Reference.coercion)
                      Scenario.later (Some ("Bearer " ++ token))
                      (snd (Login (bcrypt := Reference.bcrypt)
                              (jwt := Reference.jwt) Scenario.day1
                              Scenario.alice_login Scenario.with_alice))))
       = 200.
Proof.
  destruct (profile_shows_own_account (bcrypt := Reference.bcrypt)
              (date := Reference.date)
              (coercion := Reference.coercion) Reference.sign
              Scenario.day1 "alice" "alice@example.com" "secret1"
              Scenario.start [] Scenario.day1 [] Scenario.later
              "2024-01-24T19:10:56.000Z")
    as [token [Htoken Hprofile]].
  - discriminate.
  - discriminate.
  - vm_compute. discriminate.
  - intros r [].
  - vm_compute. reflexivity.
  - vm_compute. reflexivity.
  - vm_compute. reflexivity.
  - exists token. split; [exact Htoken|].
    cbn [run] in Hprofile. 
    change Reference.jwt
      with (TokenSpec.library JsonText.print JsonText.read Reference.sign).
    unfold Scenario.with_alice, Scenario.alice, Scenario.alice_login.
    rewrite Hprofile. reflexivity.
Defined.

Section GuardedRoutes.

Context {jwt : JsonWebToken} {date : JsDate} {coercion : Coercion}.

Lemma guard_failure_is_the_answer env authorization w r :
  fst (AuthGuard env authorization w) = Sent r ->
  Profile env authorization w = (r, snd (AuthGuard env authorization w))
  /\ ListAccounts env authorization w
     = (r, snd (AuthGuard env authorization w)).
Proof.
  step. branch; cbn [fst snd]; intros H; try discriminate H;
    injection H as <-; split; reflexivity.
Qed.

End GuardedRoutes.

(** X9: when the guard refuses a request, both guarded routes answer with the
    guard's 401 response and stop there: no statement is sent to the
    database (the world is the one the guard left, which adds to the trace
    at most the jwt.verify call and its error line). *)
Theorem guarded_routes_stop_at_guard
    {jwt : JsonWebToken} {date : JsDate}
    {coercion : Coercion} env authorization w r :
  fst (AuthGuard env authorization w) = Sent r ->
  Profile env authorization w = (r, snd (AuthGuard env authorization w))
  /\ ListAccounts env authorization w
     = (r, snd (AuthGuard env authorization w))
  /\ status r = 401
  /\ db (snd (AuthGuard env authorization w)) = db w
  /\ forall sql,
       In (SqlStatement sql) (trace (snd (AuthGuard env authorization w))) ->
       In (SqlStatement sql) (trace w).
Proof.
  intros Hr.
  destruct (guard_failure_is_the_answer env authorization w r Hr) as [Hp Hl].
  split; [exact Hp|]. split; [exact Hl|].
  split.
  { destruct (AuthGuard_sent _ _ _ _ Hr) as [->|[->| ->]]; reflexivity. }
  clear Hp Hl. revert Hr. step. branch; cbn [fst snd db trace]; intros Hr;
    try discriminate Hr; split; try reflexivity; intros sql Hin;
    try assumption.
  apply in_app_or in Hin. destruct Hin as [Hin|[Hin|[]]]; [|discriminate Hin].
  apply in_app_or in Hin. destruct Hin as [Hin|[Hin|[]]]; [|discriminate Hin].
  assumption.
Qed.

Lemma guarded_routes_stop_at_guard_witness :
  Profile (jwt := Reference.jwt) (date := Reference.date)
  (coercion := Reference.coercion) Scenario.later
    (Some "Bearer abc") Scenario.with_alice
  = (InvalidToken,
     snd (AuthGuard (jwt := Reference.jwt) Scenario.later (Some "Bearer abc")
            Scenario.with_alice)).
Proof.
  apply (guarded_routes_stop_at_guard (jwt := Reference.jwt)
           (date := Reference.date)
           (coercion := Reference.coercion) Scenario.later (Some "Bearer abc")
           Scenario.with_alice InvalidToken).
  vm_compute. reflexivity.
Defined.

(** X10: the token of a login is refused once 24 hours have passed.  With
    tokens in the format of section 4.3 (any keyed signature), the token
    signed by the login handler for an account at one time, presented as
    [Bearer <token>] 86400 seconds later or more, makes both guarded routes
    answer InvalidToken. *)
Theorem login_token_expires
    {date : JsDate} {coercion : Coercion} (sign : string -> string -> string)
    (account : User.t) issued now w :
  let jwt := TokenSpec.library JsonText.print JsonText.read sign in
  let token :=
    jwt_sign [("userId", JNum (User.id account));
              ("username", JStr (User.username account));
              ("email", JStr (User.email account))]
             JWT_SECRET expiresIn_24h (clock issued) in
  clock issued + expiresIn_24h <= clock now ->
  fst (Profile now (Some ("Bearer " ++ token)) w) = InvalidToken
  /\ fst (ListAccounts now (Some ("Bearer " ++ token)) w) = InvalidToken.
Proof.
  intros jwt token Hlate.
  assert (Hguard := login_token_lifetime sign account issued now w).
  cbv zeta in Hguard. fold jwt in Hguard. fold token in Hguard.
  apply Z.leb_le in Hlate. rewrite Hlate in Hguard.
  destruct (guard_failure_is_the_answer now _ w _ Hguard) as [Hp Hl].
  now rewrite Hp, Hl.
Qed.

Lemma login_token_expires_witness :
  fst (Profile (jwt := Reference.jwt) (date := Reference.date)
  (coercion := Reference.coercion)
         (mkEnv (clock Scenario.day1 + expiresIn_24h) "" "")
         (Some ("Bearer " ++ Scenario.alice_token)) Scenario.with_alice)
  = InvalidToken.
Proof.
  apply (login_token_expires (date := Reference.date)
  (coercion := Reference.coercion) Reference.sign
           Scenario.alice_row Scenario.day1
           (mkEnv (clock Scenario.day1 + expiresIn_24h) "" "")
           Scenario.with_alice).
  vm_compute. discriminate.
Defined.

(** X18: bcrypt.compare runs only for a known username.  For a login with
    both fields given, an unknown username is answered after the one SELECT,
    without any call of bcrypt.compare; a known username is followed by the
    log line and one call of bcrypt.compare.  The two failures that have the
    same response differ in what the server does. *)
Theorem compare_runs_only_for_known_user
    {bcrypt : Bcrypt} {jwt : JsonWebToken} env u p w :
  u <> "" -> p <> "" ->
  let w' := snd (Login env (LoginBody.make (Some u) (Some p)) w) in
  match Sql.get_by_username u (db w) with
  | None =>
      trace w'
      = (trace w ++ [SqlStatement "SELECT * FROM users WHERE username = ?"])%list
  | Some _ =>
      exists rest,
        trace w'
        = (trace w
           ++ [SqlStatement "SELECT * FROM users WHERE username = ?";
               ConsoleLog "Verifying password..."; BcryptCompare] ++ rest)%list
        /\ ~ In BcryptCompare rest
  end.
Proof.
  intros Hu Hp w'. subst w'. step.
  cbn [LoginBody.username LoginBody.password].
  rewrite !truthy_nonempty by assumption. step.
  destruct (Sql.get_by_username u (db w)) as [account|]; step;
    [|reflexivity].
  destruct (bcrypt_compare p (User.password_hash account)); cbn [negb]; step.
  - exists [JwtSign; ConsoleLog "✓ Login successful, token generated"].
    split.
    + rewrite <- !app_assoc. reflexivity.
    + intros [H|[H|[]]]; discriminate H.
  - exists []. split.
    + rewrite <- !app_assoc. reflexivity.
    + intros [].
Qed.

Lemma compare_runs_only_for_known_user_witness :
  trace (snd (Login (bcrypt := Reference.bcrypt) (jwt := Reference.jwt)
                Scenario.later (LoginBody.make (Some "ghost") (Some "secret1"))
                Scenario.with_alice))
  = (trace Scenario.with_alice
     ++ [SqlStatement "SELECT * FROM users WHERE username = ?"])%list.
Proof.
  exact (compare_runs_only_for_known_user (bcrypt := Reference.bcrypt)
           (jwt := Reference.jwt) Scenario.later "ghost" "secret1"
           Scenario.with_alice
           ltac:(discriminate) ltac:(discriminate)).
Defined.

(* ================================================================= *)
(** * Properties of the product store and its REST routes *)

Module RestFacts.
Import Rest.

Section Lists.

Context {A : Type}.

Lemma findIndex_found (f : A -> bool) l i :
  findIndex f l = Some i ->
  exists x, nth_error l i = Some x /\ f x = true /\ find f l = Some x.
Proof.
  revert i. induction l as [|y l IH]; cbn; intros i H; [discriminate|].
  destruct (f y) eqn:Hy.
  - injection H as <-. exists y. auto.
  - destruct (findIndex f l) as [j|]; [|discriminate].
    injection H as <-. destruct (IH j eq_refl) as [x [Hn [Hf Hfind]]].
    exists x. auto.
Qed.

Lemma findIndex_none (f : A -> bool) l :
  findIndex f l = None <-> find f l = None.
Proof.
  induction l as [|y l IH]; cbn; [tauto|].
  destruct (f y); [split; discriminate|].
  destruct (findIndex f l) as [j|]; cbn.
  - split; [discriminate|]. intros H. apply IH in H. discriminate.
  - split; [intros _; now apply IH | reflexivity].
Qed.

Lemma find_findIndex (f : A -> bool) l x :
  find f l = Some x -> exists i, findIndex f l = Some i.
Proof.
  intros H. destruct (findIndex f l) as [i|] eqn:Hi; [eauto|].
  apply findIndex_none in Hi. congruence.
Qed.

Lemma In_remove_at i (l : list A) x : In x (remove_at i l) -> In x l.
Proof.
  revert i. induction l as [|y l IH]; intros [|i]; cbn; auto.
  intros [->|H]; eauto.
Qed.

Lemma map_remove_at {B} (g : A -> B) i l :
  map g (remove_at i l) = remove_at i (map g l).
Proof.
  revert i. induction l as [|y l IH]; intros [|i]; cbn; auto.
  now rewrite IH.
Qed.

Lemma map_update_at {B} (g : A -> B) h i l :
  (forall x, g (h x) = g x) -> map g (update_at i h l) = map g l.
Proof.
  intros Hg. revert i. induction l as [|y l IH]; intros [|i]; cbn; auto.
  - now rewrite Hg.
  - now rewrite IH.
Qed.

Lemma nth_update_at h i (l : list A) x :
  nth_error l i = Some x -> nth_error (update_at i h l) i = Some (h x).
Proof.
  revert i. induction l as [|y l IH]; intros [|i]; cbn; try discriminate.
  - now intros [= ->].
  - apply IH.
Qed.

End Lists.

Lemma NoDup_remove_at {A} i (l : list A) : NoDup l -> NoDup (remove_at i l).
Proof.
  revert i. induction l as [|y l IH]; intros [|i] H; cbn; auto;
    inversion H as [|? ? Hy Hl]; subst; auto.
  constructor; [|now apply IH].
  intros Hin. apply Hy. now apply In_remove_at in Hin.
Qed.

Section Routes.

Context {js : JsValues}.

Lemma assign_id body p : Product.id (assign body p) = Product.id p.
Proof.
  unfold assign. destruct (ProductBody.name body), (ProductBody.price body),
    (ProductBody.inStock body); reflexivity.
Qed.

Lemma has_id_assign id body p : has_id id (assign body p) = has_id id p.
Proof. unfold has_id. now rewrite assign_id. Qed.

(** The first product with the id, before and after an update in place. *)
Lemma find_update_at id h i l p :
  (forall x, has_id id (h x) = has_id id x) ->
  findIndex (has_id id) l = Some i -> nth_error l i = Some p ->
  find (has_id id) (update_at i h l) = Some (h p).
Proof.
  intros Hh. revert i. induction l as [|y l IH]; intros i; cbn;
    [discriminate|].
  destruct (has_id id y) eqn:Hy.
  - intros [= <-] [= ->]. cbn. now rewrite Hh, Hy.
  - destruct (findIndex (has_id id) l) as [j|] eqn:Hj; [|discriminate].
    intros [= <-]. cbn. rewrite Hy. now apply IH.
Qed.

Lemma find_update_other id id' h i l :
  (forall x, has_id id' (h x) = has_id id' x) ->
  findIndex (has_id id) l = Some i -> id' <> id ->
  find (has_id id') (update_at i h l) = find (has_id id') l.
Proof.
  intros Hh. revert i. induction l as [|y l IH]; intros i; cbn;
    [discriminate|].
  destruct (has_id id y) eqn:Hy.
  - intros [= <-] Hne. cbn. rewrite Hh.
    destruct (has_id id' y) eqn:Hy'; [|reflexivity].
    exfalso. apply Hne. unfold has_id in Hy, Hy'.
    destruct id as [n|], id' as [m|]; try discriminate.
    apply Z.eqb_eq in Hy, Hy'. congruence.
  - destruct (findIndex (has_id id) l) as [j|] eqn:Hj; [|discriminate].
    intros [= <-] Hne. cbn. destruct (has_id id' y); [reflexivity|].
    now apply IH.
Qed.

Lemma find_remove_at id i l :
  NoDup (map Product.id l) ->
  findIndex (has_id id) l = Some i ->
  find (has_id id) (remove_at i l) = None.
Proof.
  revert i. induction l as [|y l IH]; intros i Hnd; cbn; [discriminate|].
  inversion Hnd as [|? ? Hy Hl]; subst.
  destruct (has_id id y) eqn:Hid.
  - intros [= <-]. cbn.
    destruct (find (has_id id) l) as [x|] eqn:Hx; [|reflexivity].
    apply find_some in Hx. destruct Hx as [Hin Hx].
    exfalso. apply Hy. unfold has_id in Hid, Hx.
    destruct id as [n|]; [|discriminate].
    apply Z.eqb_eq in Hid, Hx. rewrite Hid, <- Hx. now apply in_map.
  - destruct (findIndex (has_id id) l) as [j|] eqn:Hj; [|discriminate].
    intros [= <-]. cbn. rewrite Hid. now apply IH.
Qed.

Lemma find_remove_other id id' i l :
  findIndex (has_id id) l = Some i -> id' <> id ->
  find (has_id id') (remove_at i l) = find (has_id id') l.
Proof.
  revert i. induction l as [|y l IH]; intros i; cbn; [discriminate|].
  destruct (has_id id y) eqn:Hy.
  - intros [= <-] Hne. cbn.
    destruct (has_id id' y) eqn:Hy'; [|reflexivity].
    exfalso. apply Hne. unfold has_id in Hy, Hy'.
    destruct id as [n|], id' as [m|]; try discriminate.
    apply Z.eqb_eq in Hy, Hy'. congruence.
  - destruct (findIndex (has_id id) l) as [j|] eqn:Hj; [|discriminate].
    intros [= <-] Hne. cbn. destruct (has_id id' y); [reflexivity|].
    now apply IH.
Qed.

Lemma find_new_product n l p :
  (forall x, In x l -> Product.id x < n) -> Product.id p = n ->
  find (has_id (Some n)) (l ++ [p]) = Some p.
Proof.
  intros Hlt Hp. induction l as [|y l IH]; cbn.
  - rewrite Hp, Z.eqb_refl. reflexivity.
  - destruct (Z.eqb_spec (Product.id y) n) as [Heq|_].
    + specialize (Hlt y (or_introl eq_refl)). lia.
    + apply IH. intros x Hin. apply Hlt. now right.
Qed.

(** What each call does to the store. *)
Lemma call_effect c s :
  snd (call c s) = s
  \/ (exists p, Product.id p = nextId s
                /\ snd (call c s)
                   = {| products := products s ++ [p]; nextId := nextId s + 1 |})
  \/ (exists i body,
         snd (call c s)
         = {| products := update_at i (assign body) (products s);
              nextId := nextId s |})
  \/ (exists i, snd (call c s)
                = {| products := remove_at i (products s);
                     nextId := nextId s |}).
Proof.
  destruct c as [|param|body|param body|param]; cbn [call].
  - now left.
  - unfold get_product. destruct (find _ _); now left.
  - unfold post_product.
    destruct (ProductBody.name body) as [name|]; [|now left].
    destruct (ProductBody.price body) as [price|]; [|now left].
    destruct (falsy name); [now left|].
    right; left. cbn. eexists. split; [|reflexivity]. reflexivity.
  - unfold put_product.
    destruct (findIndex _ _) as [i|]; [|now left].
    destruct (nth_error _ i); [|now left].
    right; right; left. cbn. eauto.
  - unfold delete_product.
    destruct (findIndex _ _) as [i|]; [|now left].
    destruct (nth_error _ i); [|now left].
    right; right; right. cbn. eauto.
Qed.

Lemma sound_kept c s : sound s -> sound (snd (call c s)).
Proof.
  intros [Hnd Hlt].
  destruct (call_effect c s)
    as [-> | [[p [Hp ->]] | [[i [body ->]] | [i ->]]]]; unfold sound;
    cbn [products nextId].
  - split; assumption.
  - split.
    + rewrite map_app. cbn [map]. apply NoDup_snoc; [assumption|].
      intros Hin. apply in_map_iff in Hin. destruct Hin as [x [Hx Hin]].
      specialize (Hlt x Hin). lia.
    + intros x Hin. apply in_app_or in Hin. destruct Hin as [Hin|[<-|[]]].
      * specialize (Hlt x Hin). lia.
      * lia.
  - split.
    + now rewrite (map_update_at Product.id _ _ _ (assign_id body)).
    + intros x Hin. apply (in_map Product.id) in Hin.
      rewrite (map_update_at Product.id _ _ _ (assign_id body)) in Hin.
      apply in_map_iff in Hin. destruct Hin as [y [Hy Hin]].
      rewrite <- Hy. now apply Hlt.
  - split.
    + rewrite map_remove_at. now apply NoDup_remove_at.
    + intros x Hin. apply Hlt. now apply In_remove_at in Hin.
Qed.

Lemma sound_initial : sound initial.
Proof.
  split.
  - cbn. repeat constructor; cbn; intuition discriminate.
  - cbn. intros p [<-|[<-|[<-|[<-|[]]]]]; cbn; lia.
Qed.

End Routes.
End RestFacts.

(** X11: in every state the product store can reach from the data of
    data.js through the routes, no two products have the same id and every
    id is below [nextId]. *)
Theorem product_ids_stay_unique {js : JsValues} cs :
  Rest.sound (Rest.calls cs Rest.initial).
Proof.
  assert (H : forall s, Rest.sound s -> Rest.sound (Rest.calls cs s)).
  { induction cs as [|c cs IH]; intros s Hs; [exact Hs|].
    cbn [Rest.calls]. apply IH. now apply RestFacts.sound_kept. }
  apply H, RestFacts.sound_initial.
Qed.

(** X12: a product that was created can be read back.  When the name is
    truthy and a price is present, POST answers 201 with a product that has
    the id [nextId], the name as given, the price after parseFloat and
    inStock as given or true; the product is appended to the list, and, the
    ids of the store being below [nextId], GET with that id answers 200 with
    that product. *)
Theorem created_product_is_found
    {js : JsValues} body name price param s :
  ProductBody.name body = Some name -> falsy name = false ->
  ProductBody.price body = Some price ->
  (forall p, In p (Rest.products s) -> Product.id p < Rest.nextId s) ->
  parseInt param = Some (Rest.nextId s) ->
  let created :=
    Product.make (Rest.nextId s) name (parseFloat price)
      (match ProductBody.inStock body with
       | Some inStock => inStock
       | None => boolean true
       end) in
  fst (Rest.post_product body s)
  = Rest.mkReply 201 (Rest.Done "Product created successfully" created)
  /\ Rest.products (snd (Rest.post_product body s))
     = (Rest.products s ++ [created])%list
  /\ Rest.nextId (snd (Rest.post_product body s)) = Rest.nextId s + 1
  /\ fst (Rest.get_product param (snd (Rest.post_product body s)))
     = Rest.mkReply 200 (Rest.One created).
Proof.
  intros Hname Htruthy Hprice Hlt Hparam created.
  unfold Rest.post_product. rewrite Hname, Hprice, Htruthy.
  cbn [Rest.getNextId fst snd Rest.products Rest.nextId].
  repeat split.
  unfold Rest.get_product. rewrite Hparam. cbn [Rest.products].
  erewrite RestFacts.find_new_product; [reflexivity | exact Hlt | reflexivity].
Qed.

Lemma created_product_is_found_witness :
  fst (Rest.get_product (js := Plain.values) "5"
         (snd (Rest.post_product Plain.headphones Rest.initial)))
  = Rest.mkReply 200
      (Rest.One (Product.make (js := Plain.values) 5 (text "Headphones")
                   (number "59.99") (boolean true))).
Proof.
  apply (created_product_is_found (js := Plain.values) Plain.headphones
           (text "Headphones") (number "59.99") "5" Rest.initial);
    try reflexivity.
  exact (proj2 (RestFacts.sound_initial (js := Plain.values))).
Defined.

(** X13: a product that was deleted is gone, and only that one.  In a store
    without duplicate ids, after a DELETE answered 200 the product it
    returns is the one GET showed for that id, GET for that id answers 404,
    and GET for any other id answers as before. *)
Theorem deleted_product_is_gone {js : JsValues} param s :
  NoDup (map Product.id (Rest.products s)) ->
  Rest.code (fst (Rest.delete_product param s)) = 200 ->
  let s' := snd (Rest.delete_product param s) in
  (exists p,
      fst (Rest.delete_product param s)
      = Rest.mkReply 200 (Rest.Done "Product deleted successfully" p)
      /\ fst (Rest.get_product param s) = Rest.mkReply 200 (Rest.One p))
  /\ fst (Rest.get_product param s') = Rest.not_found (parseInt param)
  /\ forall other,
       parseInt other <> parseInt param ->
       fst (Rest.get_product other s') = fst (Rest.get_product other s).
Proof.
  intros Hnd. unfold Rest.delete_product, Rest.get_product.
  destruct (Rest.findIndex (Rest.has_id (parseInt param)) (Rest.products s))
    as [i|] eqn:Hi; [|discriminate].
  destruct (RestFacts.findIndex_found _ _ _ Hi) as [p [Hnth [_ Hfind]]].
  rewrite Hnth, Hfind. cbn [fst snd Rest.products]. intros _.
  split; [eauto|]. split.
  - rewrite (RestFacts.find_remove_at _ _ _ Hnd Hi). reflexivity.
  - intros other Hne.
    rewrite (RestFacts.find_remove_other _ _ _ _ Hi Hne).
    destruct (find (Rest.has_id (parseInt other)) (Rest.products s));
      reflexivity.
Qed.

Lemma deleted_product_is_gone_witness :
  fst (Rest.get_product (js := Plain.values) "2"
         (snd (Rest.delete_product (js := Plain.values) "2" Rest.initial)))
  = Rest.not_found (js := Plain.values) (Some 2).
Proof.
  apply (deleted_product_is_gone (js := Plain.values) "2" Rest.initial).
  - exact (proj1 (RestFacts.sound_initial (js := Plain.values))).
  - reflexivity.
Defined.

(** X14: an update changes the product it names and nothing else.  When GET
    shows a product for the id, PUT answers 200 with that product after the
    assignments of the body (a field that is absent keeps its value, a price
    that is present goes through parseFloat, the id stays), GET shows the
    updated product afterwards, GET for any other id answers as before, and
    the ids of the list and [nextId] are unchanged. *)
Theorem updated_product_is_found {js : JsValues} param body s old :
  fst (Rest.get_product param s) = Rest.mkReply 200 (Rest.One old) ->
  let s' := snd (Rest.put_product param body s) in
  let new := Rest.assign body old in
  fst (Rest.put_product param body s)
  = Rest.mkReply 200 (Rest.Done "Product updated successfully" new)
  /\ fst (Rest.get_product param s') = Rest.mkReply 200 (Rest.One new)
  /\ (forall other,
         parseInt other <> parseInt param ->
         fst (Rest.get_product other s') = fst (Rest.get_product other s))
  /\ map Product.id (Rest.products s') = map Product.id (Rest.products s)
  /\ Rest.nextId s' = Rest.nextId s
  /\ Product.id new = Product.id old
  /\ Product.name new
     = match ProductBody.name body with Some v => v | None => Product.name old end
  /\ Product.price new
     = match ProductBody.price body with
       | Some v => parseFloat v
       | None => Product.price old
       end
  /\ Product.inStock new
     = match ProductBody.inStock body with
       | Some v => v
       | None => Product.inStock old
       end.
Proof.
  unfold Rest.get_product, Rest.put_product.
  destruct (find (Rest.has_id (parseInt param)) (Rest.products s))
    as [p|] eqn:Hfind; [|discriminate].
  cbn [fst]. intros [= ->].
  destruct (RestFacts.find_findIndex _ _ _ Hfind) as [i Hi].
  destruct (RestFacts.findIndex_found _ _ _ Hi) as [x [Hnth [_ Hx]]].
  assert (x = old) by congruence. subst x.
  rewrite Hi, (RestFacts.nth_update_at _ _ _ _ Hnth).
  cbn [fst snd Rest.products Rest.nextId].
  split; [reflexivity|]. split.
  { rewrite (RestFacts.find_update_at _ _ _ _ old
               (fun x => RestFacts.has_id_assign _ body x) Hi Hnth).
    reflexivity. }
  split.
  { intros other Hne.
    rewrite (RestFacts.find_update_other _ _ _ _ _
               (fun x => RestFacts.has_id_assign _ body x) Hi Hne).
    destruct (find (Rest.has_id (parseInt other)) (Rest.products s));
      reflexivity. }
  split.
  { apply RestFacts.map_update_at. apply RestFacts.assign_id. }
  split; [reflexivity|].
  unfold Rest.assign.
  destruct (ProductBody.name body), (ProductBody.price body),
    (ProductBody.inStock body); repeat split.
Qed.

Lemma updated_product_is_found_witness :
  fst (Rest.get_product (js := Plain.values) "3"
         (snd (Rest.put_product (js := Plain.values) "3"
                 (ProductBody.make (js := Plain.values) None
                    (Some (text "12.5")) (Some (boolean true)))
                 Rest.initial)))
  = Rest.mkReply 200
      (Rest.One (Product.make (js := Plain.values) 3 (text "Keyboard")
                   (number "12.5") (boolean true))).
Proof.
  exact (proj1 (proj2
           (updated_product_is_found (js := Plain.values) "3"
              (ProductBody.make (js := Plain.values) None
                 (Some (text "12.5")) (Some (boolean true)))
              Rest.initial
              (Product.make (js := Plain.values) 3 (text "Keyboard")
                 (number "79.99") (boolean false))
              eq_refl))).
Defined.

(** X15: every call is answered 200, 201, 400 or 404, and a call answered
    400 or 404 leaves the list and [nextId] as they were; in particular a
    refused POST does not use up an id. *)
Theorem refused_calls_change_nothing {js : JsValues} c s :
  (Rest.code (fst (Rest.call c s)) = 200
   \/ Rest.code (fst (Rest.call c s)) = 201
   \/ Rest.code (fst (Rest.call c s)) = 400
   \/ Rest.code (fst (Rest.call c s)) = 404)
  /\ (400 <= Rest.code (fst (Rest.call c s)) -> snd (Rest.call c s) = s).
Proof.
  destruct c as [|param|body|param body|param]; cbn [Rest.call].
  - cbn. split; [auto | reflexivity].
  - unfold Rest.get_product. destruct (find _ _); cbn; split; auto.
  - unfold Rest.post_product.
    destruct (ProductBody.name body) as [name|]; [|cbn; split; auto].
    destruct (ProductBody.price body) as [price|]; [|cbn; split; auto].
    destruct (falsy name); cbn; split; auto. lia.
  - unfold Rest.put_product.
    destruct (Rest.findIndex _ _) as [i|] eqn:Hi; [|cbn; split; auto].
    destruct (RestFacts.findIndex_found _ _ _ Hi) as [x [Hnth _]].
    rewrite (RestFacts.nth_update_at _ _ _ _ Hnth). cbn. split; [auto | lia].
  - unfold Rest.delete_product.
    destruct (Rest.findIndex _ _) as [i|] eqn:Hi; [|cbn; split; auto].
    destruct (RestFacts.findIndex_found _ _ _ Hi) as [x [Hnth _]].
    rewrite Hnth. cbn. split; [auto | lia].
Qed.



(** X17: an id that no product has is answered 404 by GET, PUT and DELETE
    alike, with the id in the message, and the store is left as it was; this
    includes a parameter that parseInt turns into NaN. *)
Theorem unknown_product_is_not_found {js : JsValues} param body s :
  (forall p, In p (Rest.products s) -> Some (Product.id p) <> parseInt param) ->
  Rest.get_product param s = (Rest.not_found (parseInt param), s)
  /\ Rest.put_product param body s = (Rest.not_found (parseInt param), s)
  /\ Rest.delete_product param s = (Rest.not_found (parseInt param), s).
Proof.
  intros Hnone.
  assert (Hfind : find (Rest.has_id (parseInt param)) (Rest.products s) = None).
  { destruct (find _ _) as [p|] eqn:Hp; [|reflexivity].
    apply find_some in Hp. destruct Hp as [Hin Hid].
    exfalso. apply (Hnone p Hin). unfold Rest.has_id in Hid.
    destruct (parseInt param) as [n|]; [|discriminate].
    apply Z.eqb_eq in Hid. now rewrite Hid. }
  assert (Hindex := proj2 (RestFacts.findIndex_none _ _) Hfind).
  unfold Rest.get_product, Rest.put_product, Rest.delete_product.
  rewrite Hfind, Hindex. repeat split.
Qed.

Lemma unknown_product_is_not_found_witness :
  Rest.get_product (js := Plain.values) "abc" Rest.initial
  = (Rest.mkReply 404
       (Rest.Failure "Product not found" "No product exists with ID NaN"),
     Rest.initial).
Proof.
  apply (unknown_product_is_not_found (js := Plain.values) "abc"
           Plain.headphones Rest.initial).
  intros p _. discriminate.
Defined.
